(** * Graph.ts: the build-graph orchestrator of the bundler

    A shallow embedding of [src/Graph.ts].  The class [Graph] drives four
    phases (load, link, include, chunk); everything it calls on [Module],
    [ExternalModule], [Chunk], [ModuleLoader] and the helpers of [utils/]
    lives in other files.  Those collaborators appear here as the variables
    of [Section GraphModel]; the code of [Graph.ts] itself is transcribed
    function by function, with the mutable state passed explicitly. *)

From Stdlib Require Import ZArith.
From stdpp Require Import gmap strings list fin_maps sorting.

Local Open Scope Z_scope.
Local Open Scope string_scope.
Local Open Scope list_scope.

(** ** Diagnostics *)

(** [RollupWarning]: the fields that [Graph.ts] fills in. *)
Record RollupWarning := mkWarning {
  code : string;
  message : string;
  cycle : option (list string);
  importer : option string;
  name : option string;
  source : option string;
  pos : option Z
}.

#[global] Instance RollupWarning_eq_dec : EqDecision RollupWarning.
Proof. solve_decision. Defined.

(** What a [throw] carries: [new Error(message)], or the warning object that
    [error(...)] of [utils/error] raises. *)
Inductive Exception :=
  | PlainError (msg : string)
  | RollupError (w : RollupWarning).

(** How a call ends: it returns, it throws, or (for the one unbounded loop,
    run with fuel) it is still running when the fuel is spent. *)
Inductive Outcome (A : Type) :=
  | Returned (a : A)
  | Threw (e : Exception)
  | OutOfFuel.
Arguments Returned {A} a.
Arguments Threw {A} e.
Arguments OutOfFuel {A}.

#[global] Instance Outcome_ret : MRet Outcome := fun _ a => Returned a.
#[global] Instance Outcome_bind : MBind Outcome := fun _ _ k o =>
  match o with
  | Returned a => k a
  | Threw e => Threw e
  | OutOfFuel => OutOfFuel
  end.

(** ** Options *)

Inductive BuildPhase := LOAD_AND_PARSE | ANALYSE | GENERATE.

(** [PreserveEntrySignaturesOption = false | 'strict' | 'allow-extension'];
    the spec calls [false] "none". *)
Inductive PreserveEntrySignaturesOption :=
  | PreserveFalse
  | PreserveStrict
  | PreserveAllowExtension.

#[global] Instance PreserveEntrySignaturesOption_eq_dec :
  EqDecision PreserveEntrySignaturesOption.
Proof. solve_decision. Defined.

(** Modelled from the spec: the type [ModuleSideEffectsOption] of
    [rollup/types] is not in [Graph.ts]; the spec gives it as "bool,
    ['no-external'], or predicate" (a list of ids is the fourth form). *)
Inductive ModuleSideEffectsOption :=
  | SideEffectsBool (b : bool)
  | SideEffectsNoExternal
  | SideEffectsIds (ids : list string)
  | SideEffectsFun (f : string -> bool -> option bool).

(** Modelled from the spec: the type [PureModulesOption] of [rollup/types],
    the deprecated [pureExternalModules]. *)
Inductive PureModulesOption :=
  | PureBool (b : bool)
  | PureIds (ids : list string)
  | PureFun (f : string -> option bool).

(** The object form of [options.treeshake]; every field may be absent
    ([None] is [undefined]). *)
Record TreeshakeInput := {
  in_annotations : option bool;
  in_moduleSideEffects : option ModuleSideEffectsOption;
  in_propertyReadSideEffects : option bool;
  in_pureExternalModules : option PureModulesOption;
  in_tryCatchDeoptimization : option bool;
  in_unknownGlobalSideEffects : option bool
}.

(** [options.treeshake]: absent, a boolean, or an object. *)
Inductive TreeshakeOption :=
  | TreeshakeUndefined
  | TreeshakeBool (b : bool)
  | TreeshakeObject (o : TreeshakeInput).

(** [TreeshakingOptions], as stored in [this.treeshakingOptions]. *)
Record TreeshakingOptions := {
  annotations : bool;
  moduleSideEffects : option ModuleSideEffectsOption;
  propertyReadSideEffects : bool;
  pureExternalModules : option PureModulesOption;
  tryCatchDeoptimization : bool;
  unknownGlobalSideEffects : bool
}.

(** [x !== false] on a field typed [boolean | undefined]. *)
Definition notFalse (x : option bool) : bool :=
  match x with
  | Some false => false
  | _ => true
  end.

(** Lines 102-119 of the constructor: the value left in
    [this.treeshakingOptions]. *)
Definition treeshakingOptionsOf (t : TreeshakeOption) : option TreeshakingOptions :=
  match t with
  | TreeshakeBool false => None
  | TreeshakeObject o =>
      Some {| annotations := notFalse (in_annotations o);
              moduleSideEffects := in_moduleSideEffects o;
              propertyReadSideEffects := notFalse (in_propertyReadSideEffects o);
              pureExternalModules := in_pureExternalModules o;
              tryCatchDeoptimization := notFalse (in_tryCatchDeoptimization o);
              unknownGlobalSideEffects := notFalse (in_unknownGlobalSideEffects o) |}
  | TreeshakeBool true | TreeshakeUndefined =>
      Some {| annotations := true;
              moduleSideEffects := Some (SideEffectsBool true);
              propertyReadSideEffects := true;
              pureExternalModules := None;
              tryCatchDeoptimization := true;
              unknownGlobalSideEffects := true |}
  end.

(** The double quote, which the message below carries around option names. *)
Definition dq : string := String (Ascii.ascii_of_nat 34) EmptyString.

Definition quoted (s : string) : string := dq +:+ s +:+ dq.

Definition pureExternalModulesDeprecation : string :=
  "The " +:+ quoted "treeshake.pureExternalModules"
  +:+ " option is deprecated. The " +:+ quoted "treeshake.moduleSideEffects"
  +:+ " option should be used instead. "
  +:+ quoted "treeshake.pureExternalModules: true" +:+ " is equivalent to "
  +:+ quoted "treeshake.moduleSideEffects: 'no-external'".

(** Modelled from the spec: [errDeprecation] of [utils/error] is not in
    [Graph.ts]; the spec lists [DEPRECATED_FEATURE] as the code of a
    deprecation diagnostic. *)
Definition errDeprecation (deprecation : string) : RollupWarning :=
  mkWarning "DEPRECATED_FEATURE" deprecation None None None None None.

(** ** Module records

    The fields of a [Module] and of an [ExternalModule] that [Graph.ts]
    reads.  The objects themselves are mutable and shared by reference;
    a field is read through the current state of the module subsystem
    (see [moduleAt] below), and references are compared by identity. *)

(** ** JavaScript numbers that hold integers

    A counter of the plugin cache is a JavaScript number, an IEEE 754
    double.  The integers of magnitude up to [2^53] are doubles; a larger
    integer [x] with [2^k <= |x| < 2^(k+1)] is a double exactly when it is
    a multiple of [2^(k-52)].  [nearestDouble x] is the double that an
    arithmetic operation with exact result [x] yields: the nearest
    representable integer, ties to the even significand.  (Overflow to
    infinity, beyond [2^1024], is not modelled.) *)
Definition nearestDouble (x : Z) : Z :=
  if (Z.abs x <=? 2 ^ 53)%Z then x
  else
    let ulp := (2 ^ (Z.log2 (Z.abs x) - 52))%Z in
    let q := (Z.abs x / ulp)%Z in
    let r := (Z.abs x mod ulp)%Z in
    let q' := if (2 * r <? ulp)%Z then q
              else if (ulp <? 2 * r)%Z then (q + 1)%Z
              else if Z.even q then q else (q + 1)%Z in
    (Z.sgn x * (q' * ulp))%Z.


Section GraphModel.

(** References to [Module] and [ExternalModule] objects. *)
Context {ModuleRef : Type} `{EqDecision ModuleRef}.
Context {ExternalRef : Type}.

(** [Module | ExternalModule]. *)
Inductive AnyModule :=
  | IsModule (m : ModuleRef)
  | IsExternal (e : ExternalRef).

(** The [resolution] of a dynamic import:
    [Module | ExternalModule | string | null]. *)
Inductive Resolution :=
  | ResolvedTo (t : AnyModule)
  | ResolvedString (s : string)
  | ResolvedNull.

(** An entry of [module.importDescriptions], after linking: [module] is
    the producing module, [name] the exported name, [start] the position
    of the import. *)
Record ImportDescription := {
  import_module : AnyModule;
  import_name : string;
  import_start : Z
}.

Record ModuleData := {
  Module_id : string;
  Module_sources : list string;
  (* [resolvedIds[source].id] *)
  Module_resolvedIds : gmap string string;
  Module_dynamicImports : list Resolution;
  Module_dynamicImporters : list string;
  Module_importers : list string;
  Module_moduleSideEffects : bool;
  Module_isEntryPoint : bool;
  Module_isExecuted : bool;
  Module_preserveSignature : PreserveEntrySignaturesOption;
  Module_includedDynamicImporters : list ModuleRef;
  (* in the order of [Object.keys] *)
  Module_importDescriptions : list (string * ImportDescription)
}.

Record ExternalModuleData := {
  ExternalModule_id : string;
  ExternalModule_dynamicImporters : list string;
  ExternalModule_importers : list string;
  ExternalModule_moduleSideEffects : bool
}.

(** [ModuleInfo], the object that [getModuleInfo] returns. *)
Record ModuleInfo := {
  dynamicallyImportedIds : list string;
  dynamicImporters : list string;
  hasModuleSideEffects : bool;
  info_id : string;
  importedIds : list string;
  importers : list string;
  isEntry : bool;
  isExternal : bool
}.

(** [UnresolvedModule] of [ModuleLoader]. *)
Record UnresolvedModule := {
  fileName : option string;
  unresolved_id : string;
  unresolved_importer : option string;
  unresolved_name : option string
}.

(** The [input] option: [string | string[] | Record<string, string>], the
    record in the order of its keys. *)
Inductive InputOption :=
  | InputString (s : string)
  | InputArray (ids : list string)
  | InputRecord (entries : list (string * string)).

Definition normalizeEntryModules (entryModules : InputOption) : list UnresolvedModule :=
  match entryModules with
  | InputString s =>
      [ {| fileName := None; unresolved_name := None; unresolved_id := s;
           unresolved_importer := None |} ]
  | InputArray ids =>
      map (fun i => {| fileName := None; unresolved_name := None; unresolved_id := i;
                       unresolved_importer := None |}) ids
  | InputRecord entries =>
      map (fun e => {| fileName := None; unresolved_id := e.2;
                       unresolved_importer := None; unresolved_name := Some e.1 |})
          entries
  end.

(** ** Chunks *)

(** What [chunk.link()] computes (imports, dependencies, export names). *)
Context {LinkInfo : Type}.

(** Modelled from the spec: the class [Chunk] is not in [Graph.ts].  A chunk
    holds its modules ([orderedModules]) and its [entryModules];
    [chunk.link()] "computes cross-chunk imports and chooses externally
    visible names" and leaves both lists alone. *)
Record Chunk := {
  Chunk_orderedModules : list ModuleRef;
  Chunk_entryModules : list ModuleRef;
  Chunk_linkInfo : option LinkInfo
}.

(** ** The plugin cache *)

(** The cached value of a plugin-cache entry ([any] in the source). *)
Context {CacheValue : Type}.
(** [ModuleJSON], the serialised module of [rollup/types], with its [id]. *)
Context {ModuleJSON : Type} (json_id : ModuleJSON -> string).

(** [SerializablePluginCache] maps a key to [[counter, value]], and the
    plugin cache maps a plugin name to its [SerializablePluginCache].
    Iteration order plays no part in what the loops of [Graph.ts] compute,
    so the objects are finite maps.  The counter is a JavaScript number
    (a double) that holds an integer; arithmetic on it rounds as
    [nearestDouble] says. *)
Local Abbreviation SerializablePluginCache := (gmap string (Z * CacheValue)).
Local Abbreviation PluginCache := (gmap string (gmap string (Z * CacheValue))).

(** [options.cache]: [false], absent, or a [RollupCache] object. *)
Inductive CacheOption :=
  | CacheFalse
  | CacheUndefined
  | CacheObject (cmodules : option (list ModuleJSON)) (cplugins : option PluginCache).

(** [RollupCache], what [getCache] returns. *)
Record RollupCache := {
  cache_modules : list ModuleJSON;
  cache_plugins : option PluginCache
}.

(** [cache[key][0]++] (constructor, line 93): the counter becomes the
    double nearest to its successor. *)
Definition incrementAccessCounter (e : Z * CacheValue) : Z * CacheValue :=
  (nearestDouble (e.1 + 1), e.2).

(** The two loops of lines 91-94: every key of every plugin. *)
Definition incrementAccessCounters (pc : PluginCache) : PluginCache :=
  fmap (M := gmap string) (fmap (M := gmap string) incrementAccessCounter) pc.

(** The inner loop of [getCache] (235-238): [delete cache[key]] when
    [cache[key][0] >= this.cacheExpiry]. *)
Definition evictExpired (cacheExpiry : Z) (cache : SerializablePluginCache)
  : SerializablePluginCache :=
  filter (fun kv => ¬ (cacheExpiry <= kv.2.1)) cache.

(** [allDeleted] after the inner loop: every key took the [delete]
    branch. *)
Definition allDeleted (cacheExpiry : Z) (cache : SerializablePluginCache) : bool :=
  bool_decide (map_Forall (fun _ e => cacheExpiry <= e.1) cache).

(** The outer loop of [getCache] (232-240): each plugin's cache is swept,
    and [delete this.pluginCache[name]] when [allDeleted]. *)
Definition evictPluginCache (cacheExpiry : Z) (pc : PluginCache) : PluginCache :=
  omap (fun cache => if allDeleted cacheExpiry cache then None
                     else Some (evictExpired cacheExpiry cache)) pc.

(** [pluginCache[name][key]], when both exist. *)
Definition cacheEntry (pc : PluginCache) (name key : string) : option (Z * CacheValue) :=
  pc !! name ≫= (fun cache => cache !! key).

(** ** The graph *)

Record Graph := {
  cachedModules : gmap string ModuleJSON;
  (* a [Map]: keys are unique, the order is that of insertion *)
  moduleById : list (string * AnyModule);
  needsTreeshakingPass : bool;
  phase : BuildPhase;
  preserveEntrySignatures : PreserveEntrySignaturesOption;
  preserveModules : bool;
  shimMissingExports : bool;
  treeshakingOptions : option TreeshakingOptions;
  cacheExpiry : Z;
  externalModules : list ExternalRef;
  modules : list ModuleRef;
  (* the calls made to [this.onwarn], oldest first *)
  onwarn : list RollupWarning;
  pluginCache : option PluginCache;
  strictDeprecations : bool
}.

(** Field updates ([this.f = v]). *)
Definition set_onwarn (l : list RollupWarning) (g : Graph) : Graph :=
  {| cachedModules := cachedModules g; moduleById := moduleById g;
     needsTreeshakingPass := needsTreeshakingPass g; phase := phase g;
     preserveEntrySignatures := preserveEntrySignatures g;
     preserveModules := preserveModules g;
     shimMissingExports := shimMissingExports g;
     treeshakingOptions := treeshakingOptions g; cacheExpiry := cacheExpiry g;
     externalModules := externalModules g; modules := modules g;
     onwarn := l; pluginCache := pluginCache g;
     strictDeprecations := strictDeprecations g |}.

Definition set_modules (ms : list ModuleRef) (g : Graph) : Graph :=
  {| cachedModules := cachedModules g; moduleById := moduleById g;
     needsTreeshakingPass := needsTreeshakingPass g; phase := phase g;
     preserveEntrySignatures := preserveEntrySignatures g;
     preserveModules := preserveModules g;
     shimMissingExports := shimMissingExports g;
     treeshakingOptions := treeshakingOptions g; cacheExpiry := cacheExpiry g;
     externalModules := externalModules g; modules := ms;
     onwarn := onwarn g; pluginCache := pluginCache g;
     strictDeprecations := strictDeprecations g |}.

Definition set_externalModules (es : list ExternalRef) (g : Graph) : Graph :=
  {| cachedModules := cachedModules g; moduleById := moduleById g;
     needsTreeshakingPass := needsTreeshakingPass g; phase := phase g;
     preserveEntrySignatures := preserveEntrySignatures g;
     preserveModules := preserveModules g;
     shimMissingExports := shimMissingExports g;
     treeshakingOptions := treeshakingOptions g; cacheExpiry := cacheExpiry g;
     externalModules := es; modules := modules g;
     onwarn := onwarn g; pluginCache := pluginCache g;
     strictDeprecations := strictDeprecations g |}.

Definition set_moduleById (mb : list (string * AnyModule)) (g : Graph) : Graph :=
  {| cachedModules := cachedModules g; moduleById := mb;
     needsTreeshakingPass := needsTreeshakingPass g; phase := phase g;
     preserveEntrySignatures := preserveEntrySignatures g;
     preserveModules := preserveModules g;
     shimMissingExports := shimMissingExports g;
     treeshakingOptions := treeshakingOptions g; cacheExpiry := cacheExpiry g;
     externalModules := externalModules g; modules := modules g;
     onwarn := onwarn g; pluginCache := pluginCache g;
     strictDeprecations := strictDeprecations g |}.

Definition set_needsTreeshakingPass (b : bool) (g : Graph) : Graph :=
  {| cachedModules := cachedModules g; moduleById := moduleById g;
     needsTreeshakingPass := b; phase := phase g;
     preserveEntrySignatures := preserveEntrySignatures g;
     preserveModules := preserveModules g;
     shimMissingExports := shimMissingExports g;
     treeshakingOptions := treeshakingOptions g; cacheExpiry := cacheExpiry g;
     externalModules := externalModules g; modules := modules g;
     onwarn := onwarn g; pluginCache := pluginCache g;
     strictDeprecations := strictDeprecations g |}.

Definition set_phase (ph : BuildPhase) (g : Graph) : Graph :=
  {| cachedModules := cachedModules g; moduleById := moduleById g;
     needsTreeshakingPass := needsTreeshakingPass g; phase := ph;
     preserveEntrySignatures := preserveEntrySignatures g;
     preserveModules := preserveModules g;
     shimMissingExports := shimMissingExports g;
     treeshakingOptions := treeshakingOptions g; cacheExpiry := cacheExpiry g;
     externalModules := externalModules g; modules := modules g;
     onwarn := onwarn g; pluginCache := pluginCache g;
     strictDeprecations := strictDeprecations g |}.

Definition set_pluginCache (pc : option PluginCache) (g : Graph) : Graph :=
  {| cachedModules := cachedModules g; moduleById := moduleById g;
     needsTreeshakingPass := needsTreeshakingPass g; phase := phase g;
     preserveEntrySignatures := preserveEntrySignatures g;
     preserveModules := preserveModules g;
     shimMissingExports := shimMissingExports g;
     treeshakingOptions := treeshakingOptions g; cacheExpiry := cacheExpiry g;
     externalModules := externalModules g; modules := modules g;
     onwarn := onwarn g; pluginCache := pc;
     strictDeprecations := strictDeprecations g |}.

Definition set_shimMissingExports (b : bool) (g : Graph) : Graph :=
  {| cachedModules := cachedModules g; moduleById := moduleById g;
     needsTreeshakingPass := needsTreeshakingPass g; phase := phase g;
     preserveEntrySignatures := preserveEntrySignatures g;
     preserveModules := preserveModules g;
     shimMissingExports := b;
     treeshakingOptions := treeshakingOptions g; cacheExpiry := cacheExpiry g;
     externalModules := externalModules g; modules := modules g;
     onwarn := onwarn g; pluginCache := pluginCache g;
     strictDeprecations := strictDeprecations g |}.

(** *** Diagnostics: [warn] and [warnDeprecation] *)

(** [warn(warning)]: attaches the stringifier (formatting, not modelled)
    and hands the warning to [this.onwarn]. *)
Definition warn (warning : RollupWarning) (g : Graph) : Graph :=
  set_onwarn (onwarn g ++ [warning]) g.

Definition warnAll (ws : list RollupWarning) (g : Graph) : Graph :=
  foldl (fun g w => warn w g) g ws.

Definition warnDeprecation (deprecation : string) (activeDeprecation : bool) (g : Graph)
  : Outcome Graph :=
  if activeDeprecation || strictDeprecations g then
    let warning := errDeprecation deprecation in
    if strictDeprecations g then Threw (RollupError warning)
    else Returned (warn warning g)
  else Returned g.

(** *** The constructor *)

(** What the constructor hands on to its collaborators without looking
    inside: [options.plugins], [options.context],
    [options.acornInjectPlugins], [options.external], and the watcher. *)
Context {Plugins ContextOption AcornInjectPlugins ExternalOption RollupWatcher : Type}.

(** The options that the constructor reads.  [options.onwarn] is the
    handler whose calls the [onwarn] field of the graph records;
    [options.moduleContext] and [options.acorn] are only stored (149-162,
    167) for the parser and for [getModuleContext], which no other method
    of [Graph.ts] calls. *)
Record InputOptions := {
  opt_cache : CacheOption;
  opt_preserveModules : bool;
  opt_preserveEntrySignatures : PreserveEntrySignaturesOption;
  opt_strictDeprecations : bool;
  opt_experimentalCacheExpiry : Z;
  opt_treeshake : TreeshakeOption;
  opt_plugins : Plugins;
  opt_shimMissingExports : bool;
  opt_context : ContextOption;
  opt_acornInjectPlugins : AcornInjectPlugins;
  opt_preserveSymlinks : bool;
  opt_external : ExternalOption
}.

(** Lines 82-86: [this.cachedModules]. *)
Definition initialCachedModules (c : CacheOption) : gmap string ModuleJSON :=
  match c with
  | CacheObject (Some ms) _ => foldl (fun acc m => <[json_id m := m]> acc) ∅ ms
  | _ => ∅
  end.

(** Line 88: [(options.cache && options.cache.plugins) || Object.create(null)]. *)
Definition suppliedPlugins (c : CacheOption) : PluginCache :=
  match c with
  | CacheObject _ (Some plugins) => plugins
  | _ => ∅
  end.

(** Lines 87-95: [this.pluginCache], with the access counters incremented. *)
Definition initialPluginCache (c : CacheOption) : option PluginCache :=
  match c with
  | CacheFalse => None
  | _ => Some (incrementAccessCounters (suppliedPlugins c))
  end.

(** The collaborators that the constructor creates or calls (128-186).
    Each may throw.

    [new PluginDriver(this, options.plugins, this.pluginCache)] (135)
    receives the graph and the very object [this.pluginCache]: it may add
    entries to it (an empty cache for a plugin that has none) and may warn
    through the graph; it returns the plugin cache as it left it and its
    warnings, in order. *)
Context (PluginDriver_new :
           Graph -> Plugins -> option PluginCache ->
           Exception + (option PluginCache * list RollupWarning)).
(** [watcher.on('change', ...)] and [watcher.once('restart', ...)] (139-142). *)
Context (RollupWatcher_listen : RollupWatcher -> Exception + unit).
(** [String(options.context)] (147). *)
Context (String_of : ContextOption -> Exception + string).
(** [acorn.Parser.extend(...)] (177) on the three built-in plugins followed
    by [options.acornInjectPlugins]. *)
Context (Parser_extend : AcornInjectPlugins -> Exception + unit).
(** [new ModuleLoader(this, this.moduleById, this.pluginDriver,
    options.preserveSymlinks === true, options.external, ..., ...)]
    (178-186).  The sixth argument is [moduleSideEffects] of the
    treeshaking options, or [null] ([None]) without them; the seventh is
    their [pureExternalModules], or [false] without them. *)
Context (ModuleLoader_new :
           Graph -> bool -> ExternalOption ->
           option (option ModuleSideEffectsOption) -> option PureModulesOption ->
           Exception + unit).

Definition liftResult {A} (r : Exception + A) : Outcome A :=
  match r with
  | inl e => Threw e
  | inr a => Returned a
  end.

(** Lines 80-126: the fields copied or computed from the options, with
    the deprecation of [treeshake.pureExternalModules]. *)
Definition constructOptions (options : InputOptions) : Outcome Graph :=
  let g :=
    {| cachedModules := initialCachedModules (opt_cache options);
       moduleById := [];
       needsTreeshakingPass := false;
       phase := LOAD_AND_PARSE;
       preserveEntrySignatures := opt_preserveEntrySignatures options;
       preserveModules := opt_preserveModules options;
       shimMissingExports := false;
       treeshakingOptions := treeshakingOptionsOf (opt_treeshake options);
       cacheExpiry := opt_experimentalCacheExpiry options;
       externalModules := [];
       modules := [];
       onwarn := [];
       pluginCache := initialPluginCache (opt_cache options);
       strictDeprecations := opt_strictDeprecations options |} in
  match treeshakingOptions g ≫= pureExternalModules with
  | Some _ => warnDeprecation pureExternalModulesDeprecation true g
  | None => Returned g
  end.

(** The sixth and seventh arguments of [new ModuleLoader] (184-185). *)
Definition loaderModuleSideEffects (g : Graph) : option (option ModuleSideEffectsOption) :=
  match treeshakingOptions g with
  | Some t => Some (moduleSideEffects t)
  | None => None
  end.

Definition loaderPureExternalModules (g : Graph) : option PureModulesOption :=
  match treeshakingOptions g with
  | Some t => pureExternalModules t
  | None => Some (PureBool false)
  end.

(** Lines 128-186: the plugin driver, the watcher, [shimMissingExports],
    the context string, the parser and the module loader, in this order.
    [contextParse] (128-133), the global scope (146), [getModuleContext]
    (149-160) and the acorn options (162-176) are closures and fresh
    objects that nothing below reads. *)
Definition constructCollaborators (options : InputOptions) (watcher : option RollupWatcher)
    (g : Graph) : Outcome Graph :=
  '(pc, ws) ← liftResult (PluginDriver_new g (opt_plugins options) (pluginCache g));
  let g1 := set_pluginCache pc (warnAll ws g) in
  _ ← match watcher with
      | Some wt => liftResult (RollupWatcher_listen wt)
      | None => Returned tt
      end;
  let g2 := set_shimMissingExports (opt_shimMissingExports options) g1 in
  _ ← liftResult (String_of (opt_context options));
  _ ← liftResult (Parser_extend (opt_acornInjectPlugins options));
  _ ← liftResult (ModuleLoader_new g2 (opt_preserveSymlinks options) (opt_external options)
                    (loaderModuleSideEffects g2) (loaderPureExternalModules g2));
  Returned g2.

(** What the graph is after the collaborators are created: the plugin
    cache is the one the driver left, the driver's warnings follow those
    of the options, [shimMissingExports] is the option's. *)
Definition withCollaborators (options : InputOptions) (pc' : option PluginCache)
    (ws : list RollupWarning) (g : Graph) : Graph :=
  set_shimMissingExports (opt_shimMissingExports options)
    (set_pluginCache pc' (warnAll ws g)).

(** The constructor. *)
Definition newGraph (options : InputOptions) (watcher : option RollupWatcher)
  : Outcome Graph :=
  g ← constructOptions options;
  constructCollaborators options watcher g.

(** ** The module subsystem

    [W] is the state of everything outside [Graph.ts] that the build
    mutates: the [Module] objects with their syntax trees, scopes and
    variables.  A method of a collaborator is a function on [W]; where it
    reaches back into the graph it does so through [graph.warn] (its
    warnings are returned, in order) or, for [include],
    [includeAllExports], [includeAllInBundle] and
    [markModuleAndImpureDependenciesAsExecuted], by setting
    [graph.needsTreeshakingPass] to [true] (returned as a boolean: whether
    the call set it). *)
Context {W : Type}.
Context (moduleAt : W -> ModuleRef -> ModuleData).
Context (externalAt : W -> ExternalRef -> ExternalModuleData).

Context (Module_toJSON : W -> ModuleRef -> ModuleJSON).
Context (Module_isIncluded : W -> ModuleRef -> bool).
Context (Module_linkDependencies : ModuleRef -> W -> W * list RollupWarning).
Context (Module_bindReferences : ModuleRef -> W -> W * list RollupWarning).
Context (Module_include : ModuleRef -> W -> W * bool).
Context (Module_includeAllExports : ModuleRef -> W -> W * bool).
Context (Module_includeAllInBundle : ModuleRef -> W -> W * bool).
Context (markModuleAndImpureDependenciesAsExecuted : ModuleRef -> W -> W * bool).
Context (ExternalModule_warnUnusedImports : ExternalRef -> W -> W * list RollupWarning).
Context (analyseModuleExecution :
           list ModuleRef -> W -> W * (list ModuleRef * list (list string))).
Context (relativeId : string -> string).

(** *** [getCache] *)

Definition getCache (g : Graph) (w : W) : RollupCache * Graph :=
  let g' := set_pluginCache (evictPluginCache (cacheExpiry g) <$> pluginCache g) g in
  ({| cache_modules := map (Module_toJSON w) (modules g');
      cache_plugins := pluginCache g' |}, g').

(** *** [getModuleInfo] *)

(** [Map.prototype.get]. *)
Fixpoint mapGet {A} (key : string) (m : list (string * A)) : option A :=
  match m with
  | [] => None
  | (k, v) :: m' => if decide (k = key) then Some v else mapGet key m'
  end.

(** [foundModule.resolvedIds[source].id]: reading [.id] of [undefined]
    is a [TypeError]. *)
Definition resolvedIdOf (d : ModuleData) (src : string) : Outcome string :=
  match Module_resolvedIds d !! src with
  | Some i => Returned i
  | None => Threw (PlainError "Cannot read property 'id' of undefined")
  end.

Fixpoint collectImportedIds (d : ModuleData) (srcs : list string) : Outcome (list string) :=
  match srcs with
  | [] => Returned []
  | src :: rest =>
      i ← resolvedIdOf d src;
      ids ← collectImportedIds d rest;
      Returned (i :: ids)
  end.

Definition resolutionId (w : W) (r : Resolution) : option string :=
  match r with
  | ResolvedTo (IsModule m) => Some (Module_id (moduleAt w m))
  | ResolvedTo (IsExternal e) => Some (ExternalModule_id (externalAt w e))
  | _ => None
  end.

Definition getModuleInfo (moduleId : string) (g : Graph) (w : W)
  : Outcome (ModuleInfo * (Graph * W)) :=
  match mapGet moduleId (moduleById g) with
  | None => Threw (PlainError ("Unable to find module " +:+ moduleId))
  | Some (IsModule m) =>
      let foundModule := moduleAt w m in
      imported ← collectImportedIds foundModule (Module_sources foundModule);
      Returned
        ({| dynamicallyImportedIds :=
              omap (resolutionId w) (Module_dynamicImports foundModule);
            dynamicImporters := Module_dynamicImporters foundModule;
            hasModuleSideEffects := Module_moduleSideEffects foundModule;
            info_id := Module_id foundModule;
            importedIds := imported;
            importers := Module_importers foundModule;
            isEntry := Module_isEntryPoint foundModule;
            isExternal := false |}, (g, w))
  | Some (IsExternal e) =>
      let foundModule := externalAt w e in
      Returned
        ({| dynamicallyImportedIds := [];
            dynamicImporters := ExternalModule_dynamicImporters foundModule;
            hasModuleSideEffects := ExternalModule_moduleSideEffects foundModule;
            info_id := ExternalModule_id foundModule;
            importedIds := [];
            importers := ExternalModule_importers foundModule;
            isEntry := false;
            isExternal := true |}, (g, w))
  end.

(** *** [link] and [warnForMissingExports] *)

(** A [for ... of] loop that calls a method on every element; the warnings
    the calls emit are collected in order. *)
Fixpoint forEachWarn {A} (f : A -> W -> W * list RollupWarning) (l : list A) (w : W)
  : W * list RollupWarning :=
  match l with
  | [] => (w, [])
  | a :: l' =>
      let '(w1, ws1) := f a w in
      let '(w2, ws2) := forEachWarn f l' w1 in
      (w2, ws1 ++ ws2)
  end.

(** The warning object of lines 371-376; [cyclePath[0]] is [undefined] on
    an empty path. *)
Definition circularDependencyWarning (cyclePath : list string) : RollupWarning :=
  {| code := "CIRCULAR_DEPENDENCY";
     cycle := Some cyclePath;
     importer := head cyclePath;
     message := "Circular dependency: " +:+ String.concat " -> " cyclePath;
     name := None; source := None; pos := None |}.

(** Exported variables ([Variable] of [ast/variables]). *)
Context {VariableRef : Type}.
(** The export table of a module: the variable exported under a name,
    through re-exports and [export *], when there is one. *)
Context (exportedVariable : W -> ModuleRef -> string -> option VariableRef).
Context (exportShimVariable : W -> ModuleRef -> VariableRef).
Context (externalVariable : W -> ExternalRef -> string -> VariableRef).

(** Modelled from the spec: [getVariableForExportName] of [Module] and of
    [ExternalModule] is not in [Graph.ts].  For a module the spec has a
    failed lookup "substitute an undefined binding or, when configured, a
    shim" ([shimMissingExports]); an external module is a leaf that yields
    a binding for every name. *)
Definition getVariableForExportName (g : Graph) (w : W) (t : AnyModule) (n : string)
  : option VariableRef :=
  match t with
  | IsExternal e => Some (externalVariable w e n)
  | IsModule m =>
      match exportedVariable w m n with
      | Some v => Some v
      | None => if shimMissingExports g then Some (exportShimVariable w m) else None
      end
  end.

(** Modelled from the spec: [Module.warn(warning, pos)] is not in
    [Graph.ts]; it records the source position ("diagnostics include the
    earliest known source location") and passes the warning to
    [graph.warn]. *)
Definition withPos (warning : RollupWarning) (p : Z) : RollupWarning :=
  {| code := code warning; message := message warning; cycle := cycle warning;
     importer := importer warning; name := name warning;
     source := source warning; pos := Some p |}.

Definition Module_warn (warning : RollupWarning) (p : Z) (g : Graph) : Graph :=
  warn (withPos warning p) g.

Definition anyModuleId (w : W) (t : AnyModule) : string :=
  match t with
  | IsModule m => Module_id (moduleAt w m)
  | IsExternal e => ExternalModule_id (externalAt w e)
  end.

(** The warning object of lines 420-427. *)
Definition nonExistentExportWarning (w : W) (importDescription : ImportDescription)
  : RollupWarning :=
  {| code := "NON_EXISTENT_EXPORT";
     message := "Non-existent export '" +:+ import_name importDescription
                +:+ "' is imported from "
                +:+ relativeId (anyModuleId w (import_module importDescription));
     name := Some (import_name importDescription);
     source := Some (anyModuleId w (import_module importDescription));
     cycle := None; importer := None; pos := None |}.

(** The condition of lines 415-418. *)
Definition isMissingExport (g : Graph) (w : W) (importDescription : ImportDescription)
  : bool :=
  bool_decide (import_name importDescription ≠ "*")
  && bool_decide (getVariableForExportName g w (import_module importDescription)
                    (import_name importDescription) = None).

(** An import description whose producing module is a [Module] with no
    variable exported under the imported name. *)
Definition lacksExport (w : W) (importDescription : ImportDescription) : bool :=
  match import_module importDescription with
  | IsModule producer =>
      bool_decide (exportedVariable w producer (import_name importDescription) = None)
  | IsExternal _ => false
  end.

(** What [warnForMissingExports] reports for one import description, given
    the [shimMissingExports] setting. *)
Definition missingExportReport (shim : bool) (w : W)
    (entry : string * ImportDescription) : list RollupWarning :=
  if bool_decide (import_name entry.2 ≠ "*") && lacksExport w entry.2 && negb shim
  then [withPos (nonExistentExportWarning w entry.2) (import_start entry.2)]
  else [].

Definition isCircularDependency (warning : RollupWarning) : bool :=
  bool_decide (code warning = "CIRCULAR_DEPENDENCY").

(** The body of the inner loop (414-430), for one key of
    [module.importDescriptions]. *)
Definition checkImportDescription (w : W) (g : Graph)
    (entry : string * ImportDescription) : Graph :=
  let importDescription := entry.2 in
  if isMissingExport g w importDescription then
    Module_warn (nonExistentExportWarning w importDescription)
                (import_start importDescription) g
  else g.

Definition warnForMissingExports (g : Graph) (w : W) : Graph :=
  foldl (fun g m =>
           foldl (checkImportDescription w) g (Module_importDescriptions (moduleAt w m)))
        g (modules g).

Definition link (entryModules : list ModuleRef) (g : Graph) (w : W) : Graph * W :=
  let '(w1, ws1) := forEachWarn Module_linkDependencies (modules g) w in
  let g1 := warnAll ws1 g in
  let '(w2, (orderedModules, cyclePaths)) := analyseModuleExecution entryModules w1 in
  let g2 := foldl (fun g cyclePath => warn (circularDependencyWarning cyclePath) g)
                  g1 cyclePaths in
  let g3 := set_modules orderedModules g2 in
  let '(w3, ws3) := forEachWarn Module_bindReferences (modules g3) w2 in
  let g4 := warnAll ws3 g3 in
  (warnForMissingExports g4 w3, w3).

(** *** [includeStatements] *)

(** A loop that calls [request] on every element of [ms], in order, from
    the flag value [flag]: [graph.needsTreeshakingPass] is [true]
    afterwards when it was before or some call set it. *)
Fixpoint forEachRequest {A} (request : A -> W -> W * bool) (ms : list A)
    (w : W) (flag : bool) : W * bool :=
  match ms with
  | [] => (w, flag)
  | m :: ms' =>
      let '(w1, requested) := request m w in
      forEachRequest request ms' w1 (flag || requested)
  end.

(** The body of the first loop (341-345). *)
Definition seedEntryModule (m : ModuleRef) (w : W) : W * bool :=
  if bool_decide (Module_preserveSignature (moduleAt w m) ≠ PreserveFalse)
  then Module_includeAllExports m w
  else markModuleAndImpureDependenciesAsExecuted m w.

(** The first loop (340-346): seeding from the entry modules, from the
    flag value [flag]. *)
Definition seedEntryModules (entryModules : list ModuleRef) (w : W) (flag : bool)
  : W * bool :=
  forEachRequest seedEntryModule entryModules w flag.

(** One run of the [for] loop of lines 352-354, from the flag value
    [flag].  The third component lists the modules on which [include()]
    was called, in call order. *)
Fixpoint includePass (ms : list ModuleRef) (w : W) (flag : bool)
  : W * bool * list ModuleRef :=
  match ms with
  | [] => (w, flag, [])
  | m :: ms' =>
      if Module_isExecuted (moduleAt w m) then
        let '(w1, requested) := Module_include m w in
        let '(w2, flag2, calls) := includePass ms' w1 (flag || requested) in
        (w2, flag2, m :: calls)
      else includePass ms' w flag
  end.

(** One treeshaking pass (the body of the [do ... while], 350-355):
    the flag is cleared, then every executed module is included. *)
Definition treeshakingPass (g : Graph) (w : W) : Graph * W :=
  let '(w', flag, _) := includePass (modules g) w false in
  (set_needsTreeshakingPass flag g, w').

(** The [do ... while (this.needsTreeshakingPass)] loop, with fuel: one
    unit per pass.  The result carries the number of passes run. *)
Fixpoint treeshakingLoop (fuel : nat) (g : Graph) (w : W) : Outcome (Graph * W * nat) :=
  match fuel with
  | O => OutOfFuel
  | S fuel' =>
      let '(g1, w1) := treeshakingPass g w in
      if needsTreeshakingPass g1 then
        '(g2, w2, n) ← treeshakingLoop fuel' g1 w1;
        Returned (g2, w2, S n)
      else Returned (g1, w1, 1%nat)
  end.

(** The state after [k] passes. *)
Fixpoint afterPasses (k : nat) (g : Graph) (w : W) : Graph * W :=
  match k with
  | O => (g, w)
  | S k' => let '(g1, w1) := treeshakingPass g w in afterPasses k' g1 w1
  end.

(** The last loop (359-362): [externalModule.warnUnusedImports()] on every
    external module, in order. *)
Definition warnUnusedImports (g : Graph) (w : W) : Graph * W :=
  let '(w', ws) := forEachWarn ExternalModule_warnUnusedImports (externalModules g) w in
  (warnAll ws g, w').

(** [includeStatements] (339-363).  The seeding may leave
    [needsTreeshakingPass] set; the [do ... while] loop clears it at the
    start of every pass, the [else] branch never does. *)
Definition includeStatements (fuel : nat) (entryModules : list ModuleRef)
    (g : Graph) (w : W) : Outcome (Graph * W) :=
  let '(w1, flag1) := seedEntryModules entryModules w (needsTreeshakingPass g) in
  let g1 := set_needsTreeshakingPass flag1 g in
  '(g2, w2) ←
    match treeshakingOptions g1 with
    | Some _ =>
        '(g2, w2, _) ← treeshakingLoop fuel g1 w1;
        Returned (g2, w2)
    | None =>
        let '(w2, flag2) :=
          forEachRequest Module_includeAllInBundle (modules g1) w1 flag1 in
        Returned (set_needsTreeshakingPass flag2 g1, w2)
    end;
  Returned (warnUnusedImports g2 w2).

(** *** [generateChunks] *)

(** [manualChunkModulesByAlias : Record<string, Module[]>]. *)
Definition ManualChunkModules : Type := list (string * list ModuleRef).

(** What the constructor of [Chunk] leaves in [entryModules]. *)
Context (Chunk_initialEntryModules : W -> list ModuleRef -> list ModuleRef).
Context (Chunk_link : W -> Chunk -> LinkInfo).
Context (Chunk_generateFacades : W -> Chunk -> list Chunk).
Context (getChunkAssignments :
           W -> list ModuleRef -> ManualChunkModules -> list (list ModuleRef)).
(** [module.execIndex], set by the execution-order analysis. *)
Context (Module_execIndex : W -> ModuleRef -> nat).

(** [new Chunk(graph, orderedModules)]. *)
Definition newChunk (w : W) (orderedModules : list ModuleRef) : Chunk :=
  {| Chunk_orderedModules := orderedModules;
     Chunk_entryModules := Chunk_initialEntryModules w orderedModules;
     Chunk_linkInfo := None |}.

Definition set_entryModules (ms : list ModuleRef) (c : Chunk) : Chunk :=
  {| Chunk_orderedModules := Chunk_orderedModules c;
     Chunk_entryModules := ms;
     Chunk_linkInfo := Chunk_linkInfo c |}.

(** [chunk.link()]. *)
Definition linkChunk (w : W) (c : Chunk) : Chunk :=
  {| Chunk_orderedModules := Chunk_orderedModules c;
     Chunk_entryModules := Chunk_entryModules c;
     Chunk_linkInfo := Some (Chunk_link w c) |}.

(** The order of [compareExecIndex]. *)
Definition executesNoLater (w : W) (a b : ModuleRef) : Prop :=
  (Module_execIndex w a <= Module_execIndex w b)%nat.

#[local] Instance executesNoLater_dec (w : W) : RelDecision (executesNoLater w).
Proof. intros a b. unfold executesNoLater. apply _. Defined.

(** Modelled from the spec: [sortByExecutionOrder] of
    [utils/executionOrder] is not in [Graph.ts]; the spec has it "sort its
    modules by execution order", the order being [execIndex]. *)
Definition sortByExecutionOrder (w : W) (units : list ModuleRef) : list ModuleRef :=
  merge_sort (executesNoLater w) units.

(** The condition of lines 310-314. *)
Definition getsOwnChunk (w : W) (m : ModuleRef) : bool :=
  Module_isIncluded w m
  || Module_isEntryPoint (moduleAt w m)
  || bool_decide (0 < length (Module_includedDynamicImporters (moduleAt w m)))%nat.

(** The [chunks] array when the first loop nest (307-327) is done, with
    the graph: in the inline mode [sortByExecutionOrder] sorts
    [this.modules] itself, in place. *)
Definition initialChunks (entryModules : list ModuleRef)
    (manualChunkModulesByAlias : ManualChunkModules) (inlineDynamicImports : bool)
    (g : Graph) (w : W) : list Chunk * Graph :=
  if preserveModules g then
    (map (fun m => set_entryModules [m] (newChunk w [m]))
         (List.filter (getsOwnChunk w) (modules g)), g)
  else if inlineDynamicImports then
    let sorted := sortByExecutionOrder w (modules g) in
    ([newChunk w sorted], set_modules sorted g)
  else
    (map (fun chunkModules => newChunk w (sortByExecutionOrder w chunkModules))
         (getChunkAssignments w entryModules manualChunkModulesByAlias), g).

(** The result of [generateChunks], split as the source builds it: the
    linked [chunks] and the [facades]. *)
Definition generateChunkLists (entryModules : list ModuleRef)
    (manualChunkModulesByAlias : ManualChunkModules) (inlineDynamicImports : bool)
    (g : Graph) (w : W) : list Chunk * list Chunk * Graph :=
  let '(chunks, g') :=
    initialChunks entryModules manualChunkModulesByAlias inlineDynamicImports g w in
  let chunks := map (linkChunk w) chunks in
  let facades := flat_map (Chunk_generateFacades w) chunks in
  (chunks, facades, g').

Definition generateChunks (entryModules : list ModuleRef)
    (manualChunkModulesByAlias : ManualChunkModules) (inlineDynamicImports : bool)
    (g : Graph) (w : W) : list Chunk * Graph :=
  let '(chunks, facades, g') :=
    generateChunkLists entryModules manualChunkModulesByAlias inlineDynamicImports g w in
  (chunks ++ facades, g').

(** *** [parseModules] and [build] *)

(** [ManualChunksOption | void]: nothing, a record of id lists, or a
    function from a module id to an alias. *)
Inductive ManualChunksOption :=
  | ManualChunksVoid
  | ManualChunksObject (o : list (string * list string))
  | ManualChunksFunction (f : string -> option string).

Record LoadedEntries := {
  loaded_entryModules : list ModuleRef;
  loaded_manualChunkModulesByAlias : ManualChunkModules
}.

(** The loader works on the [moduleById] map it shares with the graph and
    on the module subsystem. *)
Definition LoaderState : Type := list (string * AnyModule) * W.

(** [moduleLoader.addEntryModules(unresolved, true)], awaited together
    with [moduleLoader.addManualChunks(manualChunks)] when [manualChunks]
    is an object (the second argument): the [Promise.all] of line 389,
    which rejects when either does. *)
Context (ModuleLoader_addEntryModules :
           list UnresolvedModule -> bool -> option (list (string * list string)) ->
           LoaderState -> Exception + (LoadedEntries * LoaderState)).
Context (ModuleLoader_assignManualChunks :
           (string -> option string) -> LoaderState -> Exception + LoaderState).

(** The loop of lines 401-407 over [this.moduleById.values()]. *)
Definition classifyModules (g : Graph) : Graph :=
  foldl (fun g entry =>
    match entry.2 with
    | IsModule m => set_modules (modules g ++ [m]) g
    | IsExternal e => set_externalModules (externalModules g ++ [e]) g
    end) g (moduleById g).

(** The [Module]s and the [ExternalModule]s among the values of a
    [moduleById] map, in its order. *)
Definition modulesOf (byId : list (string * AnyModule)) : list ModuleRef :=
  omap (fun entry => match entry.2 with IsModule m => Some m | IsExternal _ => None end)
       byId.

Definition externalsOf (byId : list (string * AnyModule)) : list ExternalRef :=
  omap (fun entry => match entry.2 with IsModule _ => None | IsExternal e => Some e end)
       byId.

Definition parseModules (entryModuleIds : InputOption) (manualChunks : ManualChunksOption)
    (g : Graph) (w : W) : Outcome (LoadedEntries * (Graph * W)) :=
  '(loaded, (byId, w1)) ←
    liftResult (ModuleLoader_addEntryModules (normalizeEntryModules entryModuleIds) true
      match manualChunks with ManualChunksObject o => Some o | _ => None end
      (moduleById g, w));
  '(byId, w2) ←
    match manualChunks with
    | ManualChunksFunction f => liftResult (ModuleLoader_assignManualChunks f (byId, w1))
    | _ => Returned (byId, w1)
    end;
  if bool_decide (length (loaded_entryModules loaded) = 0%nat) then
    Threw (PlainError "You must supply options.input to rollup")
  else
    Returned (loaded, (classifyModules (set_moduleById byId g), w2)).

Definition build (fuel : nat) (entryModuleIds : InputOption)
    (manualChunks : ManualChunksOption) (inlineDynamicImports : bool)
    (g : Graph) (w : W) : Outcome (list Chunk * (Graph * W)) :=
  '(loaded, (g1, w1)) ← parseModules entryModuleIds manualChunks g w;
  let g2 := set_phase ANALYSE g1 in
  let '(g3, w3) := link (loaded_entryModules loaded) g2 w1 in
  '(g4, w4) ← includeStatements fuel (loaded_entryModules loaded) g3 w3;
  let '(chunks, g5) :=
    generateChunks (loaded_entryModules loaded)
      (loaded_manualChunkModulesByAlias loaded) inlineDynamicImports g4 w4 in
  Returned (chunks, (set_phase GENERATE g5, w4)).

End GraphModel.

Arguments AnyModule : clear implicits.
Arguments Resolution : clear implicits.
Arguments ImportDescription : clear implicits.
Arguments ModuleData : clear implicits.
Arguments Chunk : clear implicits.
Arguments CacheOption : clear implicits.
Arguments RollupCache : clear implicits.
Arguments InputOptions : clear implicits.
Arguments Graph : clear implicits.
Arguments LoadedEntries : clear implicits.

(** * A model of the module subsystem

    [Module], its syntax tree and the helpers of [utils/] are not part of
    [Graph.ts].  This section gives them a small executable form, after the
    spec: a program is a table of source modules, a module is a list of
    top-level statements, and the state of the subsystem is the set of
    executed modules with the set of included statements and variables.
    Modules and variables are referred to by name. *)

(** A top-level statement: the variable it declares, the variables it
    reads, and whether it has side effects. *)
Record Statement := {
  stmt_label : string;
  stmt_reads : list string;
  stmt_hasEffects : bool
}.

Record SourceModule := {
  src_preserveSignature : PreserveEntrySignaturesOption;
  src_isEntryPoint : bool;
  src_moduleSideEffects : bool;
  src_dependencies : list string;
  src_exports : list string;
  src_imports : list (string * ImportDescription string string);
  src_statements : list Statement
}.

Record World := {
  world_executed : gset string;
  world_included : gset string
}.

Definition emptySource : SourceModule :=
  {| src_preserveSignature := PreserveStrict; src_isEntryPoint := false;
     src_moduleSideEffects := false; src_dependencies := []; src_exports := [];
     src_imports := []; src_statements := [] |}.

Definition sourceOf (prog : gmap string SourceModule) (m : string) : SourceModule :=
  default emptySource (prog !! m).

(** The fields of the module named [m], read in the state [w]. *)
Definition model_moduleAt (prog : gmap string SourceModule) (w : World) (m : string)
  : ModuleData string string :=
  let src := sourceOf prog m in
  {| Module_id := m;
     Module_sources := src_dependencies src;
     Module_resolvedIds := list_to_map ((fun d => (d, d)) <$> src_dependencies src);
     Module_dynamicImports := [];
     Module_dynamicImporters := [];
     Module_importers := [];
     Module_moduleSideEffects := src_moduleSideEffects src;
     Module_isEntryPoint := src_isEntryPoint src;
     Module_isExecuted := bool_decide (m ∈ world_executed w);
     Module_preserveSignature := src_preserveSignature src;
     Module_includedDynamicImporters := [];
     Module_importDescriptions := src_imports src |}.

Definition model_externalAt (w : World) (e : string) : ExternalModuleData :=
  {| ExternalModule_id := e; ExternalModule_dynamicImporters := [];
     ExternalModule_importers := []; ExternalModule_moduleSideEffects := true |}.

(** Modelled from the spec: [Module.includeAllExports] is not in
    [Graph.ts]; it is to "mark all of its exports as included", and what
    "newly includes anything must set [needsAnotherPass]". *)
Definition model_includeAllExports (prog : gmap string SourceModule) (m : string)
    (w : World) : World * bool :=
  let included := list_to_set (src_exports (sourceOf prog m)) ∪ world_included w in
  ({| world_executed := world_executed w; world_included := included |},
   bool_decide (included ≠ world_included w)).

(** The dependencies of [m] that have side effects. *)
Definition impureDependencies (prog : gmap string SourceModule) (m : string) : list string :=
  List.filter (fun d => src_moduleSideEffects (sourceOf prog d))
              (src_dependencies (sourceOf prog m)).

(** One round of following such dependencies from the modules of [X]. *)
Definition spread (prog : gmap string SourceModule) (X : gset string) : gset string :=
  X ∪ ⋃ ((fun m => list_to_set (impureDependencies prog m)) <$> elements X).

Fixpoint spreadN (n : nat) (prog : gmap string SourceModule) (X : gset string)
  : gset string :=
  match n with
  | O => X
  | S n' => spreadN n' prog (spread prog X)
  end.

(** Every module named as a dependency in the program. *)
Definition allDependencies (prog : gmap string SourceModule) : gset string :=
  ⋃ ((fun entry => list_to_set (src_dependencies entry.2)) <$> map_to_list prog).

(** [m] with its transitive dependencies that have side effects; as many
    rounds as there are dependencies in the program reach them all. *)
Definition impureClosure (prog : gmap string SourceModule) (m : string) : gset string :=
  spreadN (size (allDependencies prog)) prog {[m]}.

(** Modelled from the spec: [markModuleAndImpureDependenciesAsExecuted] of
    [utils/traverseStaticDependencies] is not in [Graph.ts]; it is to "mark
    the module and its transitive pure-side-effect dependencies as executed
    only", the dependencies meant being, by its name, those with side
    effects. *)
Definition model_markModuleAndImpureDependenciesAsExecuted
    (prog : gmap string SourceModule) (m : string) (w : World) : World * bool :=
  ({| world_executed := impureClosure prog m ∪ world_executed w;
      world_included := world_included w |}, false).


(** A request to include [x]: new items are marked and ask for another
    pass. *)
Definition requestItem (acc : gset string * bool) (x : string) : gset string * bool :=
  if decide (x ∈ acc.1) then acc else ({[x]} ∪ acc.1, true).

(** The include routine of a statement: one that has side effects, or whose
    variable is included, is included with the variables it reads. *)
Definition includeStatement (acc : gset string * bool) (s : Statement)
  : gset string * bool :=
  if stmt_hasEffects s || bool_decide (stmt_label s ∈ acc.1)
  then foldl requestItem acc (stmt_label s :: stmt_reads s)
  else acc.

(** Modelled from the spec: [Module.include] is not in [Graph.ts]; it is to
    "walk its AST top-down invoking each node's include routine; nodes
    request inclusion of the Variables they read and the statements required
    to produce those Variables.  A node that newly includes anything must
    set [needsAnotherPass]". *)
Definition model_include (prog : gmap string SourceModule) (m : string) (w : World)
  : World * bool :=
  let '(included, requested) :=
    foldl includeStatement (world_included w, false) (src_statements (sourceOf prog m)) in
  ({| world_executed := world_executed w; world_included := included |}, requested).

(** The statements and variables of a program. *)
Definition statementItems (s : Statement) : gset string :=
  {[stmt_label s]} ∪ list_to_set (stmt_reads s).

Definition programItems (prog : gmap string SourceModule) : gset string :=
  ⋃ ((fun entry => ⋃ (statementItems <$> src_statements entry.2)) <$> map_to_list prog).

(** What a run of requests or of include routines may do to the included
    set and the flag: add items of [D], and raise the flag exactly when
    something was added. *)
Definition includesWithin (D : gset string) (acc acc' : gset string * bool) : Prop :=
  acc.1 ⊆ acc'.1 ∧ acc'.1 ⊆ acc.1 ∪ D
  ∧ (acc'.2 = true ↔ acc.2 = true ∨ acc'.1 ≠ acc.1).

(** The rest of the subsystem, in its plainest form. *)
Definition model_isIncluded (prog : gmap string SourceModule) (w : World) (m : string)
  : bool :=
  existsb (fun s => bool_decide (stmt_label s ∈ world_included w))
          (src_statements (sourceOf prog m)).

Definition model_includeAllInBundle (prog : gmap string SourceModule) (m : string)
    (w : World) : World * bool :=
  let included := ⋃ (statementItems <$> src_statements (sourceOf prog m))
                  ∪ world_included w in
  ({| world_executed := world_executed w; world_included := included |},
   bool_decide (included ≠ world_included w)).

Definition model_noWarnings (r : string) (w : World) : World * list RollupWarning :=
  (w, []).

Definition model_analyseModuleExecution (entryModules : list string) (w : World)
  : World * (list string * list (list string)) :=
  (w, (entryModules, [])).

Definition model_exportedVariable (prog : gmap string SourceModule) (w : World)
    (m n : string) : option string :=
  if bool_decide (n ∈ src_exports (sourceOf prog m)) then Some n else None.

Definition model_exportShimVariable (w : World) (m : string) : string :=
  "_missingExportShim".

Definition model_externalVariable (w : World) (e n : string) : string := n.

Definition model_initialEntryModules (prog : gmap string SourceModule) (w : World)
    (ms : list string) : list string :=
  List.filter (fun m => src_isEntryPoint (sourceOf prog m)) ms.

Definition model_link (w : World) (c : Chunk string unit) : unit := tt.

Definition model_generateFacades (w : World) (c : Chunk string unit)
  : list (Chunk string unit) := [].

Definition model_getChunkAssignments (w : World) (entryModules : list string)
    (manual : list (string * list string)) : list (list string) :=
  map (fun m => [m]) entryModules.

Definition model_execIndex (w : World) (m : string) : nat := String.length m.

(** A loader that finds the modules of the program among the requested
    ids. *)
Definition model_addEntryModules (prog : gmap string SourceModule)
    (unresolved : list UnresolvedModule) (isUserDefined : bool)
    (manual : option (list (string * list string)))
    (st : list (string * AnyModule string string) * World)
  : Exception + (LoadedEntries string * (list (string * AnyModule string string) * World)) :=
  let found :=
    List.filter (fun m => bool_decide (is_Some (prog !! m)))
                (map unresolved_id unresolved) in
  inr ({| loaded_entryModules := found; loaded_manualChunkModulesByAlias := [] |},
       (st.1 ++ map (fun m => (m, IsModule m)) found, st.2)).

Definition model_assignManualChunks (f : string → option string)
    (st : list (string * AnyModule string string) * World)
  : Exception + (list (string * AnyModule string string) * World) :=
  inr st.

(** A two-module program: [main.js] imports [y] and a missing [z] from
    [lib.js], which has a side effect. *)
Definition exampleProgram : gmap string SourceModule :=
  {[ "main.js" :=
       {| src_preserveSignature := PreserveStrict; src_isEntryPoint := true;
          src_moduleSideEffects := true; src_dependencies := ["lib.js"];
          src_exports := ["x"];
          src_imports :=
            [("y", {| import_module := IsModule "lib.js"; import_name := "y";
                      import_start := 7 |});
             ("z", {| import_module := IsModule "lib.js"; import_name := "z";
                      import_start := 10 |});
             ("ns", {| import_module := IsModule "lib.js"; import_name := "*";
                       import_start := 30 |})];
          src_statements :=
            [ {| stmt_label := "x"; stmt_reads := ["y"]; stmt_hasEffects := false |} ] |};
     "lib.js" :=
       {| src_preserveSignature := PreserveFalse; src_isEntryPoint := false;
          src_moduleSideEffects := true; src_dependencies := [];
          src_exports := ["y"; "unused"];
          src_imports := [];
          src_statements :=
            [ {| stmt_label := "y"; stmt_reads := []; stmt_hasEffects := false |};
              {| stmt_label := "unused"; stmt_reads := []; stmt_hasEffects := false |};
              {| stmt_label := "log"; stmt_reads := []; stmt_hasEffects := true |} ] |} ]}.

Definition exampleWorld : World :=
  {| world_executed := {["main.js"; "lib.js"]}; world_included := {["x"]} |}.

Definition exampleGraph : Graph string string string string :=
  {| cachedModules := ∅;
     moduleById := [("main.js", IsModule "main.js"); ("lib.js", IsModule "lib.js");
                    ("fs", IsExternal "fs")];
     needsTreeshakingPass := false; phase := ANALYSE;
     preserveEntrySignatures := PreserveStrict; preserveModules := true;
     shimMissingExports := false;
     treeshakingOptions := treeshakingOptionsOf TreeshakeUndefined;
     cacheExpiry := 10; externalModules := ["fs"];
     modules := ["lib.js"; "main.js"]; onwarn := [];
     pluginCache := Some {[ "plugin" := {[ "fresh" := (1, "a"); "stale" := (10, "b") ]} ]};
     strictDeprecations := false |}.

(** The same graph with [preserveModules] off. *)
Definition exampleBundleGraph : Graph string string string string :=
  {| cachedModules := ∅;
     moduleById := moduleById exampleGraph;
     needsTreeshakingPass := false; phase := ANALYSE;
     preserveEntrySignatures := PreserveStrict; preserveModules := false;
     shimMissingExports := false;
     treeshakingOptions := treeshakingOptions exampleGraph;
     cacheExpiry := 10; externalModules := ["fs"];
     modules := ["main.js"; "lib.js"]; onwarn := [];
     pluginCache := None;
     strictDeprecations := false |}.

(** A graph as the constructor leaves it, with tree-shaking on. *)
Definition exampleFreshGraph : Graph string string string string :=
  {| cachedModules := ∅; moduleById := [];
     needsTreeshakingPass := false; phase := LOAD_AND_PARSE;
     preserveEntrySignatures := PreserveStrict; preserveModules := false;
     shimMissingExports := false;
     treeshakingOptions := treeshakingOptionsOf TreeshakeUndefined;
     cacheExpiry := 10; externalModules := []; modules := []; onwarn := [];
     pluginCache := Some ∅; strictDeprecations := false |}.

(** The same with tree-shaking off. *)
Definition exampleNoTreeshakeGraph : Graph string string string string :=
  {| cachedModules := ∅; moduleById := [];
     needsTreeshakingPass := false; phase := LOAD_AND_PARSE;
     preserveEntrySignatures := PreserveStrict; preserveModules := false;
     shimMissingExports := false;
     treeshakingOptions := treeshakingOptionsOf (TreeshakeBool false);
     cacheExpiry := 10; externalModules := []; modules := []; onwarn := [];
     pluginCache := Some ∅; strictDeprecations := false |}.

(** The modules as they are while loading: parsed, so that their sources
    are known, but with no source resolved yet. *)
Definition model_loadingModuleAt (prog : gmap string SourceModule) (w : World) (m : string)
  : ModuleData string string :=
  let src := sourceOf prog m in
  {| Module_id := m;
     Module_sources := src_dependencies src;
     Module_resolvedIds := ∅;
     Module_dynamicImports := [];
     Module_dynamicImporters := [];
     Module_importers := [];
     Module_moduleSideEffects := src_moduleSideEffects src;
     Module_isEntryPoint := src_isEntryPoint src;
     Module_isExecuted := false;
     Module_preserveSignature := src_preserveSignature src;
     Module_includedDynamicImporters := [];
     Module_importDescriptions := [] |}.

(** The collaborators of the constructor, in their plainest form: a plugin
    driver that gives every plugin named in [plugins] a cache of its own,
    an empty one where the supplied cache has none, and warns of nothing;
    a watcher, a parser and a loader that accept what they are given. *)
Definition model_PluginDriver_new (g : Graph string string string string)
    (plugins : list string) (pc : option (gmap string (gmap string (Z * string))))
  : Exception + (option (gmap string (gmap string (Z * string))) * list RollupWarning) :=
  inr ((fun pc => foldl (fun pc name =>
                           if pc !! name is Some _ then pc else <[name := ∅]> pc)
                        pc plugins) <$> pc, []).

Definition model_RollupWatcher_listen (watcher : unit) : Exception + unit := inr tt.

Definition model_String_of (context : string) : Exception + string := inr context.

Definition model_Parser_extend (plugins : list string) : Exception + unit := inr tt.

Definition model_ModuleLoader_new (g : Graph string string string string)
    (preserveSymlinks : bool) (external : list string)
    (moduleSideEffects : option (option ModuleSideEffectsOption))
    (pureExternalModules : option PureModulesOption) : Exception + unit :=
  inr tt.

Definition exampleOptions
  : InputOptions string string (list string) string (list string) (list string) :=
  {| opt_cache := CacheObject None
                    (Some {[ "plugin" := {[ "fresh" := (0, "a"); "stale" := (9, "b") ]} ]});
     opt_preserveModules := false;
     opt_preserveEntrySignatures := PreserveStrict;
     opt_strictDeprecations := false;
     opt_experimentalCacheExpiry := 10;
     opt_treeshake :=
       TreeshakeObject
         {| in_annotations := Some false; in_moduleSideEffects := None;
            in_propertyReadSideEffects := None;
            in_pureExternalModules := Some (PureBool true);
            in_tryCatchDeoptimization := Some true;
            in_unknownGlobalSideEffects := None |};
     opt_plugins := ["plugin"; "other"];
     opt_shimMissingExports := false;
     opt_context := "undefined";
     opt_acornInjectPlugins := [];
     opt_preserveSymlinks := false;
     opt_external := ["fs"] |}.

(** The constructor on the collaborators above. *)
Definition model_newGraph
    (options : InputOptions string string (list string) string (list string) (list string))
    (watcher : option unit) : Outcome (Graph string string string string) :=
  newGraph (fun j : string => j) model_PluginDriver_new model_RollupWatcher_listen
    model_String_of model_Parser_extend model_ModuleLoader_new options watcher.

(** A program in which the entry [a.js], whose signature is not
    preserved, exports again the variable [x] of the entry [b.js], whose
    signature is. *)
Definition reexportProgram : gmap string SourceModule :=
  {[ "a.js" :=
       {| src_preserveSignature := PreserveFalse; src_isEntryPoint := true;
          src_moduleSideEffects := true; src_dependencies := ["b.js"];
          src_exports := ["x"]; src_imports := []; src_statements := [] |};
     "b.js" :=
       {| src_preserveSignature := PreserveStrict; src_isEntryPoint := true;
          src_moduleSideEffects := true; src_dependencies := [];
          src_exports := ["x"]; src_imports := [];
          src_statements :=
            [ {| stmt_label := "x"; stmt_reads := []; stmt_hasEffects := false |} ] |} ]}.

(** The state before anything is executed or included. *)
Definition emptyWorld : World := {| world_executed := ∅; world_included := ∅ |}.

(** The options of [exampleOptions] with a cache entry whose counter has
    reached [2^53]. *)
Definition saturatedOptions
  : InputOptions string string (list string) string (list string) (list string) :=
  {| opt_cache := CacheObject None (Some {[ "plugin" := {[ "old" := (2 ^ 53, "a") ]} ]});
     opt_preserveModules := false;
     opt_preserveEntrySignatures := PreserveStrict;
     opt_strictDeprecations := false;
     opt_experimentalCacheExpiry := 2 ^ 60;
     opt_treeshake := TreeshakeUndefined;
     opt_plugins := ["plugin"];
     opt_shimMissingExports := false;
     opt_context := "undefined";
     opt_acornInjectPlugins := [];
     opt_preserveSymlinks := false;
     opt_external := [] |}.

(** The graph while the modules load: [main.js] has been added to
    [moduleById] and parsed, [modules] is not filled yet. *)
Definition exampleLoadingGraph : Graph string string string string :=
  {| cachedModules := ∅; moduleById := [("main.js", IsModule "main.js")];
     needsTreeshakingPass := false; phase := LOAD_AND_PARSE;
     preserveEntrySignatures := PreserveStrict; preserveModules := false;
     shimMissingExports := false;
     treeshakingOptions := treeshakingOptionsOf TreeshakeUndefined;
     cacheExpiry := 10; externalModules := []; modules := []; onwarn := [];
     pluginCache := Some ∅; strictDeprecations := false |}.

(** Decides a closed, decidable proposition by evaluation. *)
Ltac by_evaluation := apply (bool_decide_unpack _); vm_compute; exact I.

(** * Properties *)

Section GraphTheory.

Context {ModuleRef : Type} `{EqDecision ModuleRef}.
Context {ExternalRef LinkInfo CacheValue ModuleJSON W VariableRef : Type}.
Context (json_id : ModuleJSON -> string).
Context (moduleAt : W -> ModuleRef -> ModuleData ModuleRef ExternalRef).
Context (externalAt : W -> ExternalRef -> ExternalModuleData).
Context (Module_toJSON : W -> ModuleRef -> ModuleJSON).
Context (Module_linkDependencies Module_bindReferences :
           ModuleRef -> W -> W * list RollupWarning).
Context (analyseModuleExecution :
           list ModuleRef -> W -> W * (list ModuleRef * list (list string))).
Context (relativeId : string -> string).
Context (exportedVariable : W -> ModuleRef -> string -> option VariableRef).
Context (exportShimVariable : W -> ModuleRef -> VariableRef).
Context (externalVariable : W -> ExternalRef -> string -> VariableRef).
Context (Module_include : ModuleRef -> W -> W * bool).
Context (Module_isIncluded : W -> ModuleRef -> bool).
Context (Chunk_initialEntryModules : W -> list ModuleRef -> list ModuleRef).
Context (Chunk_link : W -> Chunk ModuleRef LinkInfo -> LinkInfo).
Context (Chunk_generateFacades : W -> Chunk ModuleRef LinkInfo -> list (Chunk ModuleRef LinkInfo)).
Context (getChunkAssignments :
           W -> list ModuleRef -> list (string * list ModuleRef) -> list (list ModuleRef)).
Context (Module_execIndex : W -> ModuleRef -> nat).
Context (Module_includeAllExports Module_includeAllInBundle
           markModuleAndImpureDependenciesAsExecuted : ModuleRef -> W -> W * bool).
Context (ExternalModule_warnUnusedImports : ExternalRef -> W -> W * list RollupWarning).
Context {Plugins ContextOption AcornInjectPlugins ExternalOption RollupWatcher : Type}.
Context (PluginDriver_new :
           Graph ModuleRef ExternalRef CacheValue ModuleJSON -> Plugins ->
           option (gmap string (gmap string (Z * CacheValue))) ->
           Exception + (option (gmap string (gmap string (Z * CacheValue)))
                        * list RollupWarning)).
Context (RollupWatcher_listen : RollupWatcher -> Exception + unit).
Context (String_of : ContextOption -> Exception + string).
Context (Parser_extend : AcornInjectPlugins -> Exception + unit).
Context (ModuleLoader_new :
           Graph ModuleRef ExternalRef CacheValue ModuleJSON -> bool -> ExternalOption ->
           option (option ModuleSideEffectsOption) -> option PureModulesOption ->
           Exception + unit).
Context (ModuleLoader_addEntryModules :
           list UnresolvedModule -> bool -> option (list (string * list string)) ->
           list (string * AnyModule ModuleRef ExternalRef) * W ->
           Exception + (LoadedEntries ModuleRef
                        * (list (string * AnyModule ModuleRef ExternalRef) * W))).
Context (ModuleLoader_assignManualChunks :
           (string -> option string) ->
           list (string * AnyModule ModuleRef ExternalRef) * W ->
           Exception + (list (string * AnyModule ModuleRef ExternalRef) * W)).


Implicit Types (pc : gmap string (gmap string (Z * CacheValue))).
Implicit Types (cache : gmap string (Z * CacheValue)).
Implicit Types (g : Graph ModuleRef ExternalRef CacheValue ModuleJSON).
Implicit Types (w : W).
Implicit Types (options : InputOptions CacheValue ModuleJSON Plugins ContextOption
                            AcornInjectPlugins ExternalOption).
Implicit Types (watcher : option RollupWatcher).

(** ** The plugin cache *)


Lemma evictExpired_lookup cacheExpiry cache key e :
  evictExpired cacheExpiry cache !! key = Some e
  ↔ cache !! key = Some e ∧ e.1 < cacheExpiry.
Proof using Type.
  unfold evictExpired. rewrite map_lookup_filter_Some. simpl.
  split; intros [Hl Hc]; (split; [exact Hl | lia]).
Qed.

Lemma allDeleted_false cacheExpiry cache :
  allDeleted cacheExpiry cache = false
  ↔ ∃ key e, cache !! key = Some e ∧ e.1 < cacheExpiry.
Proof using Type.
  unfold allDeleted. rewrite bool_decide_eq_false, map_not_Forall by apply _.
  unfold map_Exists. split; intros (key & e & He & Hlt); exists key, e; split; auto; lia.
Qed.

Lemma evictPluginCache_lookup cacheExpiry pc plugin cache :
  evictPluginCache cacheExpiry pc !! plugin = Some cache
  ↔ ∃ c, pc !! plugin = Some c ∧ cache = evictExpired cacheExpiry c
         ∧ ∃ key e, c !! key = Some e ∧ e.1 < cacheExpiry.
Proof using Type.
  unfold evictPluginCache. rewrite lookup_omap, bind_Some. split.
  - intros (c & Hc & Hd). exists c. split; [done|].
    destruct (allDeleted cacheExpiry c) eqn:Hall; [done|].
    apply allDeleted_false in Hall. by simplify_eq.
  - intros (c & Hc & -> & Hex). exists c. split; [done|].
    apply allDeleted_false in Hex. by rewrite Hex.
Qed.





(** ** The constructor *)

Lemma set_onwarn_id g : set_onwarn (onwarn g) g = g.
Proof using Type. by destruct g. Qed.

Lemma warnAll_eq ws g : warnAll ws g = set_onwarn (onwarn g ++ ws) g.
Proof using Type.
  revert g. induction ws as [|x ws IH]; intros g.
  - simpl. by rewrite app_nil_r, set_onwarn_id.
  - unfold warnAll in *. simpl. rewrite IH. unfold warn. simpl.
    by rewrite <- app_assoc.
Qed.

Lemma constructOptions_unfold options :
  constructOptions (ModuleRef := ModuleRef) (ExternalRef := ExternalRef) json_id options
  = let g :=
      {| cachedModules := initialCachedModules json_id (opt_cache options);
         moduleById := [];
         needsTreeshakingPass := false;
         phase := LOAD_AND_PARSE;
         preserveEntrySignatures := opt_preserveEntrySignatures options;
         preserveModules := opt_preserveModules options;
         shimMissingExports := false;
         treeshakingOptions := treeshakingOptionsOf (opt_treeshake options);
         cacheExpiry := opt_experimentalCacheExpiry options;
         externalModules := [];
         modules := [];
         onwarn := [];
         pluginCache := initialPluginCache (opt_cache options);
         strictDeprecations := opt_strictDeprecations options |} in
    match treeshakingOptionsOf (opt_treeshake options) ≫= pureExternalModules with
    | Some _ =>
        if opt_strictDeprecations options
        then Threw (RollupError (errDeprecation pureExternalModulesDeprecation))
        else Returned (set_onwarn [errDeprecation pureExternalModulesDeprecation] g)
    | None => Returned g
    end.
Proof using Type.
  unfold constructOptions, warnDeprecation. simpl.
  destruct (treeshakingOptionsOf (opt_treeshake options) ≫= pureExternalModules);
    [|done].
  by destruct (opt_strictDeprecations options).
Qed.

Lemma constructOptions_Returned options g0 :
  constructOptions json_id options = Returned g0 →
  cachedModules g0 = initialCachedModules json_id (opt_cache options)
  ∧ moduleById g0 = [] ∧ needsTreeshakingPass g0 = false ∧ phase g0 = LOAD_AND_PARSE
  ∧ preserveEntrySignatures g0 = opt_preserveEntrySignatures options
  ∧ preserveModules g0 = opt_preserveModules options
  ∧ shimMissingExports g0 = false
  ∧ treeshakingOptions g0 = treeshakingOptionsOf (opt_treeshake options)
  ∧ cacheExpiry g0 = opt_experimentalCacheExpiry options
  ∧ externalModules g0 = [] ∧ modules g0 = []
  ∧ pluginCache g0 = initialPluginCache (opt_cache options)
  ∧ strictDeprecations g0 = opt_strictDeprecations options
  ∧ onwarn g0
    = match treeshakingOptionsOf (opt_treeshake options) ≫= pureExternalModules with
      | Some _ => [errDeprecation pureExternalModulesDeprecation]
      | None => []
      end
  ∧ (is_Some (treeshakingOptionsOf (opt_treeshake options) ≫= pureExternalModules) →
     opt_strictDeprecations options = false).
Proof using Type.
  rewrite constructOptions_unfold. cbv zeta.
  destruct (treeshakingOptionsOf (opt_treeshake options) ≫= pureExternalModules);
    [destruct (opt_strictDeprecations options)|];
    intros Hg; simplify_eq; simpl; split_and!; done.
Qed.

Lemma constructCollaborators_Returned options watcher g0 g :
  constructCollaborators PluginDriver_new RollupWatcher_listen String_of Parser_extend
    ModuleLoader_new options watcher g0 = Returned g →
  ∃ dc ws,
    PluginDriver_new g0 (opt_plugins options) (pluginCache g0) = inr (dc, ws)
    ∧ g = withCollaborators options dc ws g0.
Proof using Type.
  unfold constructCollaborators, mbind, Outcome_bind, liftResult, withCollaborators.
  destruct (PluginDriver_new g0 (opt_plugins options) (pluginCache g0))
    as [e|[dc ws]]; [done|].
  intros Hg. exists dc, ws. split; [done|].
  destruct (match watcher with Some wt => _ | None => _ end); [|done..].
  destruct (String_of (opt_context options)); [done|].
  destruct (Parser_extend (opt_acornInjectPlugins options)); [done|].
  destruct (ModuleLoader_new _ _ _ _ _); [done|]. by simplify_eq.
Qed.

Lemma newGraph_Returned options watcher g :
  newGraph json_id PluginDriver_new RollupWatcher_listen String_of Parser_extend
    ModuleLoader_new options watcher = Returned g →
  ∃ g0 dc ws,
    constructOptions json_id options = Returned g0
    ∧ PluginDriver_new g0 (opt_plugins options) (pluginCache g0) = inr (dc, ws)
    ∧ g = withCollaborators options dc ws g0.
Proof using Type.
  unfold newGraph, mbind, Outcome_bind.
  destruct (constructOptions json_id options) as [g0| |] eqn:Hg0; [|done..].
  intros Hg. apply constructCollaborators_Returned in Hg as (dc & ws & Hdriver & ->).
  by exists g0, dc, ws.
Qed.

Lemma withCollaborators_fields options dc ws g :
  cachedModules (withCollaborators options dc ws g) = cachedModules g
  ∧ moduleById (withCollaborators options dc ws g) = moduleById g
  ∧ needsTreeshakingPass (withCollaborators options dc ws g) = needsTreeshakingPass g
  ∧ phase (withCollaborators options dc ws g) = phase g
  ∧ preserveEntrySignatures (withCollaborators options dc ws g)
    = preserveEntrySignatures g
  ∧ preserveModules (withCollaborators options dc ws g) = preserveModules g
  ∧ shimMissingExports (withCollaborators options dc ws g) = opt_shimMissingExports options
  ∧ treeshakingOptions (withCollaborators options dc ws g) = treeshakingOptions g
  ∧ cacheExpiry (withCollaborators options dc ws g) = cacheExpiry g
  ∧ externalModules (withCollaborators options dc ws g) = externalModules g
  ∧ modules (withCollaborators options dc ws g) = modules g
  ∧ pluginCache (withCollaborators options dc ws g) = dc
  ∧ strictDeprecations (withCollaborators options dc ws g) = strictDeprecations g
  ∧ onwarn (withCollaborators options dc ws g) = onwarn g ++ ws.
Proof using Type.
  unfold withCollaborators. rewrite (warnAll_eq ws g). simpl. by split_and!.
Qed.


(** ** Tree-shaking options *)

Lemma notFalse_false x : notFalse x = false ↔ x = Some false.
Proof using Type. destruct x as [[]|]; simpl; split; congruence. Qed.

(** C10. Whatever [options.treeshake] is, short of the literal [false],
    [this.treeshakingOptions] is set on the graph: the option part of the
    constructor either returns such a graph or, with a defined
    [pureExternalModules] under [strictDeprecations], throws the
    deprecation, and every graph the constructor returns has
    [treeshakingOptions] set (and unset for the literal [false]).  For
    [true] and for an absent option the five flags of the graph's
    [treeshakingOptions] are [true]; for the object form, each of
    [annotations], [propertyReadSideEffects], [tryCatchDeoptimization] and
    [unknownGlobalSideEffects] is [false] exactly when the option is the
    literal [false], and [moduleSideEffects] and [pureExternalModules] are
    the given values.  A defined [pureExternalModules] always yields the
    deprecation diagnostic: thrown by the constructor under
    [strictDeprecations], else passed to [onwarn] before anything else, so
    that it is the first warning of every graph the constructor returns. *)
Theorem treeshake_option_normalisation :
  ∀ options watcher,
    (opt_treeshake options ≠ TreeshakeBool false →
       (∃ g0, constructOptions (ModuleRef := ModuleRef) (ExternalRef := ExternalRef)
                json_id options = Returned g0
              ∧ is_Some (treeshakingOptions g0))
       ∨ (constructOptions (ModuleRef := ModuleRef) (ExternalRef := ExternalRef)
            json_id options
          = Threw (RollupError (errDeprecation pureExternalModulesDeprecation))
          ∧ opt_strictDeprecations options = true
          ∧ ∃ o, opt_treeshake options = TreeshakeObject o
                 ∧ is_Some (in_pureExternalModules o)))
    ∧ (∀ g,
       newGraph json_id PluginDriver_new RollupWatcher_listen String_of Parser_extend
         ModuleLoader_new options watcher = Returned g →
       (opt_treeshake options ≠ TreeshakeBool false → is_Some (treeshakingOptions g))
       ∧ (opt_treeshake options = TreeshakeBool false → treeshakingOptions g = None)
       ∧ (opt_treeshake options = TreeshakeBool true
          ∨ opt_treeshake options = TreeshakeUndefined →
          ∃ t, treeshakingOptions g = Some t
            ∧ annotations t = true
            ∧ moduleSideEffects t = Some (SideEffectsBool true)
            ∧ propertyReadSideEffects t = true
            ∧ pureExternalModules t = None
            ∧ tryCatchDeoptimization t = true
            ∧ unknownGlobalSideEffects t = true)
       ∧ (∀ o, opt_treeshake options = TreeshakeObject o →
          ∃ t, treeshakingOptions g = Some t
            ∧ (annotations t = false ↔ in_annotations o = Some false)
            ∧ (propertyReadSideEffects t = false
               ↔ in_propertyReadSideEffects o = Some false)
            ∧ (tryCatchDeoptimization t = false ↔ in_tryCatchDeoptimization o = Some false)
            ∧ (unknownGlobalSideEffects t = false
               ↔ in_unknownGlobalSideEffects o = Some false)
            ∧ moduleSideEffects t = in_moduleSideEffects o
            ∧ pureExternalModules t = in_pureExternalModules o
            ∧ (is_Some (in_pureExternalModules o) →
               opt_strictDeprecations options = false
               ∧ ∃ ws, onwarn g = errDeprecation pureExternalModulesDeprecation :: ws)))
    ∧ (∀ o p, opt_treeshake options = TreeshakeObject o →
       in_pureExternalModules o = Some p →
       code (errDeprecation pureExternalModulesDeprecation) = "DEPRECATED_FEATURE"
       ∧ if opt_strictDeprecations options then
           newGraph (ModuleRef := ModuleRef) (ExternalRef := ExternalRef) json_id
             PluginDriver_new RollupWatcher_listen String_of Parser_extend
             ModuleLoader_new options watcher
           = Threw (RollupError (errDeprecation pureExternalModulesDeprecation))
         else
           ∃ g0, constructOptions json_id options = Returned g0
             ∧ onwarn g0 = [errDeprecation pureExternalModulesDeprecation]
             ∧ newGraph json_id PluginDriver_new RollupWatcher_listen String_of
                 Parser_extend ModuleLoader_new options watcher
               = constructCollaborators PluginDriver_new RollupWatcher_listen String_of
                   Parser_extend ModuleLoader_new options watcher g0).
Proof using Type.
  intros options watcher. split_and!.
  - intros Hts. rewrite constructOptions_unfold. cbv zeta.
    destruct (opt_treeshake options) as [|[]|o] eqn:Ho; simpl; try done.
    + left. eexists. split; [done|]. simpl. eauto.
    + left. eexists. split; [done|]. simpl. eauto.
    + destruct (in_pureExternalModules o) as [p|] eqn:Hp; simpl.
      * destruct (opt_strictDeprecations options).
        -- right. split_and!; [done..|]. exists o. rewrite Hp. eauto.
        -- left. eexists. split; [done|]. simpl. eauto.
      * left. eexists. split; [done|]. simpl. eauto.
  - intros g Hg.
    apply newGraph_Returned in Hg as (g0 & dc & ws & Hg0 & _ & ->).
    destruct (withCollaborators_fields options dc ws g0)
      as (_ & _ & _ & _ & _ & _ & _ & -> & _ & _ & _ & _ & _ & ->).
    destruct (constructOptions_Returned _ _ Hg0)
      as (_ & _ & _ & _ & _ & _ & _ & -> & _ & _ & _ & _ & _ & -> & Hstrict).
    split_and!.
    + intros Hts. destruct (opt_treeshake options) as [|[]|]; simpl; eauto. done.
    + by intros ->.
    + intros [->| ->]; simpl; eexists; (split; [done|]); simpl; by split_and!.
    + intros o Ho. rewrite Ho in *. simpl in *. eexists. split; [done|]. simpl.
      rewrite !notFalse_false. split_and!; try done.
      intros [p Hp]. rewrite Hp in *. simpl in *. split; [eauto|].
      by exists ws.
  - intros o p Ho Hp. split; [done|].
    unfold newGraph. rewrite constructOptions_unfold. cbv zeta.
    rewrite Ho. simpl. rewrite Hp. simpl.
    destruct (opt_strictDeprecations options); simpl; [done|].
    eexists. split; [done|]. done.
Qed.

(** ** [getModuleInfo] *)





(** ** [link] *)


Lemma warnAll_onwarn ws g : onwarn (warnAll ws g) = onwarn g ++ ws.
Proof using Type.
  revert g. induction ws as [|x ws IH]; intros g; simpl.
  - by rewrite app_nil_r.
  - unfold warnAll in *. simpl. rewrite IH. simpl. by rewrite <- app_assoc.
Qed.

Lemma warnAll_modules ws g : modules (warnAll ws g) = modules g.
Proof using Type.
  revert g. induction ws as [|x ws IH]; intros g; [done|].
  unfold warnAll in *. simpl. by rewrite IH.
Qed.

Lemma warnAll_shimMissingExports ws g :
  shimMissingExports (warnAll ws g) = shimMissingExports g.
Proof using Type.
  revert g. induction ws as [|x ws IH]; intros g; [done|].
  unfold warnAll in *. simpl. by rewrite IH.
Qed.

Lemma warn_cycles_eq cyclePaths g :
  foldl (fun g cyclePath => warn (circularDependencyWarning cyclePath) g) g cyclePaths
  = warnAll (map circularDependencyWarning cyclePaths) g.
Proof using Type.
  revert g. induction cyclePaths as [|c cs IH]; intros g; [done|].
  simpl. rewrite IH. done.
Qed.

Lemma isMissingExport_spec g w (d : ImportDescription ModuleRef ExternalRef) :
  isMissingExport exportedVariable exportShimVariable externalVariable g w d
  = bool_decide (import_name d ≠ "*")
    && lacksExport exportedVariable w d
    && negb (shimMissingExports g).
Proof using Type.
  unfold isMissingExport, getVariableForExportName, lacksExport.
  destruct (bool_decide (import_name d ≠ "*")); simpl; [|done].
  destruct (import_module d) as [producer|e]; simpl; [|done].
  destruct (exportedVariable w producer (import_name d)); simpl; [done|].
  by destruct (shimMissingExports g).
Qed.

Lemma flat_map_all_nil {A B} (f : A → list B) (l : list A) :
  (∀ x, f x = []) → flat_map f l = [].
Proof using Type. intros Hf. induction l as [|x l IH]; simpl; [done|]. by rewrite Hf, IH. Qed.

Lemma warnForMissingExports_inner w
    (entries : list (string * ImportDescription ModuleRef ExternalRef)) g :
  let g' :=
    foldl (checkImportDescription moduleAt externalAt relativeId
             exportedVariable exportShimVariable externalVariable w) g entries in
  modules g' = modules g
  ∧ shimMissingExports g' = shimMissingExports g
  ∧ onwarn g' = onwarn g ++
      flat_map (missingExportReport moduleAt externalAt relativeId exportedVariable
                  (shimMissingExports g) w) entries.
Proof using Type.
  revert g. induction entries as [|entry entries IH]; intros g; cbn [foldl flat_map].
  - by rewrite app_nil_r.
  - unfold missingExportReport at 1, checkImportDescription at 2 4 6.
    rewrite <- isMissingExport_spec. cbv zeta.
    destruct (isMissingExport _ _ _ g w entry.2) eqn:Hmiss.
    + destruct (IH (Module_warn
                      (nonExistentExportWarning moduleAt externalAt relativeId w entry.2)
                      (import_start entry.2) g)) as (Hm & Hs & Ho).
      split_and!; [by rewrite Hm | by rewrite Hs |].
      rewrite Ho. simpl. by rewrite <- app_assoc.
    + apply IH.
Qed.

Lemma warnForMissingExports_outer w (ms : list ModuleRef) g :
  let g' :=
    foldl (fun g m =>
      foldl (checkImportDescription moduleAt externalAt relativeId
               exportedVariable exportShimVariable externalVariable w)
            g (Module_importDescriptions (moduleAt w m))) g ms in
  modules g' = modules g
  ∧ shimMissingExports g' = shimMissingExports g
  ∧ onwarn g' = onwarn g ++
      flat_map (fun m =>
        flat_map (missingExportReport moduleAt externalAt relativeId exportedVariable
                    (shimMissingExports g) w)
                 (Module_importDescriptions (moduleAt w m))) ms.
Proof using Type.
  revert g. induction ms as [|m ms IH]; intros g; simpl.
  - by rewrite app_nil_r.
  - destruct (warnForMissingExports_inner w (Module_importDescriptions (moduleAt w m)) g)
      as (Hm & Hs & Ho). simpl in Hm, Hs, Ho.
    match goal with |- context [foldl _ ?g1 ms] => destruct (IH g1) as (Hm' & Hs' & Ho') end.
    split_and!; [congruence | congruence |].
    rewrite Ho', Ho, Hs. by rewrite <- app_assoc.
Qed.

(** C7. [warnForMissingExports] passes to [onwarn], in the order of
    [modules] and of each module's import descriptions, one warning for
    every import description whose imported name is not [*], whose
    producing module has no variable for that name, and only when
    [shimMissingExports] is off; it passes nothing else and always returns.
    The warning has the code [NON_EXISTENT_EXPORT], names the import and
    the id of its source module, and carries the position of the import.
    With [shimMissingExports] on nothing is reported, and a namespace
    import is never reported. *)
Theorem warnForMissingExports_reports g w :
  let g' := warnForMissingExports moduleAt externalAt relativeId
              exportedVariable exportShimVariable externalVariable g w in
  modules g' = modules g
  ∧ onwarn g' = onwarn g ++
      flat_map (fun m =>
        flat_map (fun entry =>
          if bool_decide (import_name entry.2 ≠ "*")
             && lacksExport exportedVariable w entry.2
             && negb (shimMissingExports g)
          then [withPos (nonExistentExportWarning moduleAt externalAt relativeId w entry.2)
                        (import_start entry.2)]
          else [])
          (Module_importDescriptions (moduleAt w m))) (modules g)
  ∧ (∀ d : ImportDescription ModuleRef ExternalRef,
       let warning := withPos (nonExistentExportWarning moduleAt externalAt relativeId w d)
                              (import_start d) in
       code warning = "NON_EXISTENT_EXPORT"
       ∧ name warning = Some (import_name d)
       ∧ source warning = Some (anyModuleId moduleAt externalAt w (import_module d))
       ∧ pos warning = Some (import_start d))
  ∧ (shimMissingExports g = true → onwarn g' = onwarn g)
  ∧ (∀ warning, warning ∈ drop (length (onwarn g)) (onwarn g') →
       code warning = "NON_EXISTENT_EXPORT" ∧ name warning ≠ Some "*").
Proof using Type.
  intros g'. subst g'. unfold warnForMissingExports.
  destruct (warnForMissingExports_outer w (modules g) g) as (Hm & Hs & Ho).
  cbv zeta in Hm, Hs, Ho.
  set (g' := foldl _ g (modules g)) in *.
  split_and!; [done | done | done | |].
  - intros Hshim. rewrite Ho, Hshim.
    rewrite <- (app_nil_r (onwarn g)) at 2. f_equal.
    apply flat_map_all_nil. intros m. apply flat_map_all_nil. intros entry.
    unfold missingExportReport. by rewrite andb_false_r.
  - intros warning. rewrite Ho, drop_app_length.
    rewrite list_elem_of_In, in_flat_map. intros (m & _ & Hin).
    apply in_flat_map in Hin as (entry & _ & Hin). unfold missingExportReport in Hin.
    destruct (bool_decide (import_name entry.2 ≠ "*")) eqn:Hstar; simpl in Hin; [|done].
    destruct (lacksExport _ w entry.2 && negb (shimMissingExports g)); simpl in Hin; [|done].
    destruct Hin as [<-|[]]. simpl. split; [done|].
    apply bool_decide_eq_true in Hstar. congruence.
Qed.

Lemma missingExportReport_code shim w
    (entry : string * ImportDescription ModuleRef ExternalRef) :
  Forall (fun x => code x = "NON_EXISTENT_EXPORT")
         (missingExportReport moduleAt externalAt relativeId exportedVariable shim w entry).
Proof using Type.
  unfold missingExportReport.
  destruct (_ && _); [|constructor]. by repeat constructor.
Qed.

Lemma Forall_flat_map_intro {A B} (P : B → Prop) (f : A → list B) (l : list A) :
  (∀ x, Forall P (f x)) → Forall P (flat_map f l).
Proof using Type.
  intros Hf. induction l as [|x l IH]; simpl; [constructor|].
  apply Forall_app. split; [apply Hf | apply IH].
Qed.

Lemma keep_circular cyclePaths (others : list RollupWarning) :
  Forall (fun x => code x = "NON_EXISTENT_EXPORT") others →
  List.filter isCircularDependency (map circularDependencyWarning cyclePaths ++ others)
  = map circularDependencyWarning cyclePaths.
Proof using Type.
  intros Hothers. induction cyclePaths as [|c cs IH]; simpl.
  - induction Hothers as [|x xs Hx _ IH]; simpl; [done|].
    unfold isCircularDependency at 1. rewrite Hx. simpl. exact IH.
  - by rewrite IH.
Qed.

(** C5. [link] hands to [onwarn], between the warnings of
    [linkDependencies] and those of [bindReferences], one warning for each
    cycle path that [analyseModuleExecution] returned, in order; these are
    the only warnings with the code [CIRCULAR_DEPENDENCY] that [link]
    itself emits (the rest being the [NON_EXISTENT_EXPORT] reports), and
    the i-th of them carries the i-th cycle path whole, with its first
    element as importer.  A lone cycle path, such as that of an entry
    importing itself, gives a lone such warning.  [link] always returns,
    with the computed execution order stored in [modules]. *)
Theorem link_reports_cycles entryModules g w :
  let '(w1, ws1) := forEachWarn Module_linkDependencies (modules g) w in
  let '(w2, (orderedModules, cyclePaths)) := analyseModuleExecution entryModules w1 in
  let '(w3, ws3) := forEachWarn Module_bindReferences orderedModules w2 in
  let g' := (link moduleAt externalAt Module_linkDependencies Module_bindReferences
               analyseModuleExecution relativeId exportedVariable exportShimVariable
               externalVariable entryModules g w).1 in
  modules g' = orderedModules
  ∧ (∃ missing,
        onwarn g' = onwarn g ++ ws1 ++ map circularDependencyWarning cyclePaths
                    ++ ws3 ++ missing
        ∧ Forall (fun x => code x = "NON_EXISTENT_EXPORT") missing
        ∧ List.filter isCircularDependency
            (map circularDependencyWarning cyclePaths ++ missing)
          = map circularDependencyWarning cyclePaths
        ∧ ∀ cyclePath, cyclePaths = [cyclePath] →
            List.filter isCircularDependency
              (map circularDependencyWarning cyclePaths ++ missing)
            = [circularDependencyWarning cyclePath])
  ∧ length (map circularDependencyWarning cyclePaths) = length cyclePaths
  ∧ (∀ i cyclePath, cyclePaths !! i = Some cyclePath →
        ∃ warning, map circularDependencyWarning cyclePaths !! i = Some warning
          ∧ code warning = "CIRCULAR_DEPENDENCY"
          ∧ cycle warning = Some cyclePath
          ∧ importer warning = head cyclePath
          ∧ message warning
            = "Circular dependency: " +:+ String.concat " -> " cyclePath).
Proof using Type.
  unfold link.
  destruct (forEachWarn Module_linkDependencies (modules g) w) as [w1 ws1].
  destruct (analyseModuleExecution entryModules w1) as [w2 [orderedModules cyclePaths]].
  rewrite warn_cycles_eq. cbn [modules set_modules].
  destruct (forEachWarn Module_bindReferences orderedModules w2) as [w3 ws3].
  cbn [fst].
  match goal with
  | |- context [warnForMissingExports _ _ _ _ _ _ ?g4 w3] =>
      destruct (warnForMissingExports_outer w3 (modules g4) g4) as (Hm & Hs & Ho);
      fold (warnForMissingExports moduleAt externalAt relativeId exportedVariable
              exportShimVariable externalVariable g4 w3) in Hm, Hs, Ho
  end.
  cbv zeta in Hm, Hs, Ho.
  rewrite warnAll_modules in Hm. cbn [modules set_modules] in Hm.
  rewrite warnAll_onwarn in Ho. cbn [onwarn set_modules] in Ho.
  rewrite !warnAll_onwarn in Ho.
  match type of Ho with _ = _ ++ ?missing => set (reports := missing) in * end.
  assert (Forall (fun x => code x = "NON_EXISTENT_EXPORT") reports) as Hcodes.
  { apply Forall_flat_map_intro. intros m. apply Forall_flat_map_intro. intros entry.
    apply missingExportReport_code. }
  split_and!.
  - exact Hm.
  - exists reports. split_and!.
    + rewrite Ho. by rewrite <- !app_assoc.
    + exact Hcodes.
    + by apply keep_circular.
    + intros cyclePath Hone. rewrite keep_circular by done. by rewrite Hone.
  - by rewrite length_map.
  - intros i cyclePath Hi. exists (circularDependencyWarning cyclePath).
    rewrite list_lookup_fmap, Hi. done.
Qed.

(** ** The treeshaking loop *)


Lemma includePass_app (l1 l2 : list ModuleRef) w flag :
  includePass moduleAt Module_include (l1 ++ l2) w flag
  = let '(w1, f1, c1) := includePass moduleAt Module_include l1 w flag in
    let '(w2, f2, c2) := includePass moduleAt Module_include l2 w1 f1 in
    (w2, f2, c1 ++ c2).
Proof using Type.
  revert w flag. induction l1 as [|m l1 IH]; intros w flag; simpl.
  - by destruct (includePass moduleAt Module_include l2 w flag) as [[? ?] ?].
  - destruct (Module_isExecuted (moduleAt w m)); [|apply IH].
    destruct (Module_include m w) as [w1 r]. rewrite IH.
    destruct (includePass moduleAt Module_include l1 w1 (flag || r)) as [[w2 f2] c2].
    by destruct (includePass moduleAt Module_include l2 w2 f2) as [[? ?] ?].
Qed.

(** [include()] is called on [m] exactly when the loop reaches an
    occurrence of [m] in [modules] with [m.isExecuted] set at that time. *)
Lemma includePass_calls (ms : list ModuleRef) w flag m :
  m ∈ (includePass moduleAt Module_include ms w flag).2
  ↔ ∃ l1 l2, ms = l1 ++ m :: l2
      ∧ Module_isExecuted
          (moduleAt (includePass moduleAt Module_include l1 w flag).1.1 m) = true.
Proof using Type.
  revert w flag. induction ms as [|a ms IH]; intros w flag; simpl.
  - split; [intros Hm; by apply elem_of_nil in Hm|].
    intros (l1 & l2 & Heq & _). by destruct l1.
  - destruct (Module_isExecuted (moduleAt w a)) eqn:Hexec.
    + destruct (Module_include a w) as [w1 r] eqn:Hinc.
      specialize (IH w1 (flag || r)).
      destruct (includePass moduleAt Module_include ms w1 (flag || r)) as [[w2 f2] c2].
      simpl in *. rewrite elem_of_cons, IH. split.
      * intros [->|(l1 & l2 & -> & Hex)].
        -- exists [], ms. done.
        -- exists (a :: l1), l2. split; [done|]. simpl. rewrite Hexec, Hinc.
           by destruct (includePass moduleAt Module_include l1 w1 (flag || r)) as [[? ?] ?].
      * intros (l1 & l2 & Heq & Hex). destruct l1 as [|b l1]; simplify_eq/=.
        -- by left.
        -- right. exists l1, l2. split; [done|]. rewrite Hexec, Hinc in Hex.
           by destruct (includePass moduleAt Module_include l1 w1 (flag || r)) as [[? ?] ?].
    + rewrite IH. split.
      * intros (l1 & l2 & -> & Hex). exists (a :: l1), l2. split; [done|].
        simpl. by rewrite Hexec.
      * intros (l1 & l2 & Heq & Hex). destruct l1 as [|b l1]; simplify_eq/=.
        -- congruence.
        -- exists l1, l2. split; [done|]. by rewrite Hexec in Hex.
Qed.

(** The state and the flag after a pass are those after the calls of
    [include()] it made. *)
Lemma includePass_requests (ms : list ModuleRef) w flag :
  (includePass moduleAt Module_include ms w flag).1
  = forEachRequest Module_include
      (includePass moduleAt Module_include ms w flag).2 w flag.
Proof using Type.
  revert w flag. induction ms as [|m ms IH]; intros w flag; simpl; [done|].
  destruct (Module_isExecuted (moduleAt w m)); [|apply IH].
  destruct (Module_include m w) as [w1 r] eqn:Hinc.
  specialize (IH w1 (flag || r)).
  destruct (includePass moduleAt Module_include ms w1 (flag || r)) as [[w2 f2] c2].
  simpl in *. by rewrite Hinc.
Qed.

Lemma warnAll_needsTreeshakingPass ws g :
  needsTreeshakingPass (warnAll ws g) = needsTreeshakingPass g.
Proof using Type.
  revert g. induction ws as [|x ws IH]; intros g; [done|].
  unfold warnAll in *. simpl. by rewrite IH.
Qed.

Section TreeshakingTermination.

(** The statements and variables that inclusion marks; [includedItems w]
    is the set marked so far and [domain] the finite set they are all
    drawn from. *)
Context {Item : Type} `{Countable Item}.
Context (includedItems : W → gset Item) (domain : gset Item).

(** Modelled from the spec: [Module.include] is not in [Graph.ts].  "Once
    included, never un-included within a build". *)
Hypothesis include_grows :
  ∀ m w, includedItems w ⊆ includedItems (Module_include m w).1.
(** Modelled from the spec: "a node that newly includes anything must set
    [needsAnotherPass]", and the flag is "set by any newly-included node",
    by nothing else. *)
Hypothesis include_requests_pass :
  ∀ m w, (Module_include m w).2 = true
         ↔ includedItems (Module_include m w).1 ≠ includedItems w.
(** Modelled from the spec: the marked set ranges over "a finite domain
    (Variables and statements)". *)
Hypothesis include_in_domain :
  ∀ m w, includedItems w ⊆ domain → includedItems (Module_include m w).1 ⊆ domain.

Lemma includePass_grows (ms : list ModuleRef) w flag :
  let '(w', flag', _) := includePass moduleAt Module_include ms w flag in
  includedItems w ⊆ includedItems w'
  ∧ (includedItems w ⊆ domain → includedItems w' ⊆ domain)
  ∧ (flag' = true ↔ flag = true ∨ includedItems w' ≠ includedItems w).
Proof using include_grows include_requests_pass include_in_domain.
  revert w flag. induction ms as [|m ms IH]; intros w flag; simpl.
  - split_and!; [done | done |]. split; [by left | intros [?|?]; done].
  - destruct (Module_isExecuted (moduleAt w m)); [|apply IH].
    pose proof (include_grows m w) as Hg.
    pose proof (include_requests_pass m w) as Hr.
    pose proof (include_in_domain m w) as Hd.
    destruct (Module_include m w) as [w1 r]. simpl in Hg, Hr, Hd.
    specialize (IH w1 (flag || r)).
    destruct (includePass moduleAt Module_include ms w1 (flag || r)) as [[w2 f2] c2].
    destruct IH as (Hg2 & Hd2 & Hf2). split_and!.
    + by etrans.
    + intros Hdom. apply Hd2, Hd, Hdom.
    + rewrite Hf2, orb_true_iff, Hr. split.
      * intros [[?|Hne]|Hne]; [by left | right | right].
        -- intros Heq. apply Hne. apply set_eq. intros x. split; [|apply Hg].
           intros Hx. rewrite <- Heq. by apply Hg2.
        -- intros Heq. apply Hne. apply set_eq. intros x. split; [|apply Hg2].
           intros Hx. apply Hg. by rewrite <- Heq.
      * intros [?|Hne]; [by left; left|].
        destruct (decide (includedItems w1 = includedItems w)) as [Heq|Hne1].
        -- right. by rewrite Heq.
        -- left. by right.
Qed.

Lemma treeshakingPass_grows g w :
  let '(g1, w1) := treeshakingPass moduleAt Module_include g w in
  includedItems w ⊆ includedItems w1
  ∧ (includedItems w ⊆ domain → includedItems w1 ⊆ domain)
  ∧ (needsTreeshakingPass g1 = true ↔ includedItems w1 ≠ includedItems w).
Proof using include_grows include_requests_pass include_in_domain.
  unfold treeshakingPass.
  pose proof (includePass_grows (modules g) w false) as Hp.
  destruct (includePass moduleAt Module_include (modules g) w false) as [[w1 f1] c1].
  destruct Hp as (Hg & Hd & Hf). split_and!; [done | done |]. simpl.
  rewrite Hf. split; [intros [?|?]; done | by right].
Qed.

Lemma remaining_shrinks (X Y : gset Item) :
  X ⊆ Y → Y ⊆ domain → Y ≠ X → (size (domain ∖ Y) < size (domain ∖ X))%nat.
Proof using Type.
  intros HXY HY Hne. apply subset_size.
  assert (∃ x, x ∈ Y ∧ x ∉ X) as (x & HxY & HxX).
  { destruct (set_choose_or_empty (Y ∖ X)) as [[x Hx]|Hempty].
    - apply elem_of_difference in Hx. eauto.
    - destruct Hne. apply set_eq. intros x. split; [|apply HXY].
      intros Hx. destruct (decide (x ∈ X)) as [|Hnotin]; [done|].
      assert (x ∈ Y ∖ X) as Hin by (apply elem_of_difference; done).
      apply Hempty in Hin. by apply elem_of_empty in Hin. }
  split.
  - intros y Hy. apply elem_of_difference in Hy as [Hyd HyY].
    apply elem_of_difference. split; [done|]. intros HyX. by apply HyY, HXY.
  - intros Hsub.
    assert (x ∈ domain ∖ X) as Hin by (apply elem_of_difference; split; [by apply HY|done]).
    apply Hsub, elem_of_difference in Hin as [_ Hin]. done.
Qed.

Lemma treeshakingLoop_terminates (bound : nat) g w :
  includedItems w ⊆ domain →
  (size (domain ∖ includedItems w) ≤ bound)%nat →
  ∃ n, (1 ≤ n ≤ S bound)%nat
    ∧ (∀ fuel, (n ≤ fuel)%nat →
         treeshakingLoop moduleAt Module_include fuel g w
         = Returned (afterPasses moduleAt Module_include n g w, n))
    ∧ (∀ fuel, (fuel < n)%nat →
         treeshakingLoop moduleAt Module_include fuel g w = OutOfFuel)
    ∧ (∀ k, (1 ≤ k < n)%nat →
         needsTreeshakingPass (afterPasses moduleAt Module_include k g w).1 = true)
    ∧ needsTreeshakingPass (afterPasses moduleAt Module_include n g w).1 = false
    ∧ includedItems (afterPasses moduleAt Module_include n g w).2
      = includedItems (afterPasses moduleAt Module_include (n - 1) g w).2.
Proof using include_grows include_requests_pass include_in_domain.
  revert g w. induction bound as [|bound IH]; intros g w Hdom Hsize.
  all: pose proof (treeshakingPass_grows g w) as Hpass.
  all: destruct (treeshakingPass moduleAt Module_include g w) as [g1 w1] eqn:Hstep.
  all: destruct Hpass as (Hg & Hd & Hf).
  all: destruct (needsTreeshakingPass g1) eqn:Hflag.
  all: try (assert (includedItems w1 ≠ includedItems w) as Hne by by apply Hf).
  all: try (pose proof (remaining_shrinks _ _ Hg (Hd Hdom) Hne) as Hlt).
  - lia.
  - exists 1%nat. split_and!; [lia | lia | | | | |].
    + intros [|fuel] Hfuel; [lia|]. simpl. by rewrite Hstep, Hflag.
    + intros fuel Hfuel. by replace fuel with 0%nat by lia.
    + intros k Hk. lia.
    + simpl. by rewrite Hstep.
    + simpl. rewrite Hstep. simpl.
      destruct (decide (includedItems w1 = includedItems w)) as [|Hne]; [done|].
      apply Hf in Hne. congruence.
  - destruct (IH g1 w1 (Hd Hdom)) as (n & Hn & Hret & Hout & Hbefore & Hlast & Hfix); [lia|].
    exists (S n). split_and!; [lia | lia | | | | |].
    + intros [|fuel] Hfuel; [lia|]. simpl. rewrite Hstep, Hflag.
      rewrite Hret by lia.
      by destruct (afterPasses moduleAt Module_include n g1 w1) as [? ?].
    + intros [|fuel] Hfuel; [done|]. simpl. rewrite Hstep, Hflag.
      by rewrite Hout by lia.
    + intros [|[|k]] Hk; [lia | simpl; by rewrite Hstep |].
      simpl. rewrite Hstep. apply (Hbefore (S k)). lia.
    + simpl. by rewrite Hstep.
    + simpl. rewrite Hstep. rewrite Hfix. rewrite Nat.sub_0_r.
      destruct n as [|n]; [lia|]. simpl. rewrite Hstep. by rewrite Nat.sub_0_r.
  - exists 1%nat. split_and!; [lia | lia | | | | |].
    + intros [|fuel] Hfuel; [lia|]. simpl. by rewrite Hstep, Hflag.
    + intros fuel Hfuel. by replace fuel with 0%nat by lia.
    + intros k Hk. lia.
    + simpl. by rewrite Hstep.
    + simpl. rewrite Hstep. simpl.
      destruct (decide (includedItems w1 = includedItems w)) as [|Hne]; [done|].
      apply Hf in Hne. congruence.
Qed.

(** With tree-shaking on, [includeStatements] is the seeding, the loop
    from the seeded state, and the warnings of the external modules. *)
Lemma includeStatements_on fuel entryModules g w :
  is_Some (treeshakingOptions g) →
  includeStatements moduleAt Module_include Module_includeAllExports
    Module_includeAllInBundle markModuleAndImpureDependenciesAsExecuted
    ExternalModule_warnUnusedImports fuel entryModules g w
  = let seeded := seedEntryModules moduleAt Module_includeAllExports
                    markModuleAndImpureDependenciesAsExecuted entryModules w
                    (needsTreeshakingPass g) in
    match treeshakingLoop moduleAt Module_include fuel
            (set_needsTreeshakingPass seeded.2 g) seeded.1 with
    | Returned (g2, w2, _) =>
        Returned (warnUnusedImports ExternalModule_warnUnusedImports g2 w2)
    | Threw e => Threw e
    | OutOfFuel => OutOfFuel
    end.
Proof using Type.
  intros [t Hon]. unfold includeStatements.
  destruct (seedEntryModules moduleAt Module_includeAllExports
              markModuleAndImpureDependenciesAsExecuted entryModules w
              (needsTreeshakingPass g)) as [w1 flag1].
  cbv zeta. simpl. rewrite Hon. unfold mbind, Outcome_bind.
  destruct (treeshakingLoop moduleAt Module_include fuel
              (set_needsTreeshakingPass flag1 g) w1) as [[[g2 w2] n]| |]; done.
Qed.

Lemma warnUnusedImports_needsTreeshakingPass g w :
  needsTreeshakingPass (warnUnusedImports ExternalModule_warnUnusedImports g w).1
  = needsTreeshakingPass g.
Proof using Type.
  unfold warnUnusedImports.
  destruct (forEachWarn ExternalModule_warnUnusedImports (externalModules g) w)
    as [w' ws].
  simpl. apply warnAll_needsTreeshakingPass.
Qed.

(** C1. In a pass of the treeshaking loop [include()] is called on a
    module exactly when the loop reaches it in [modules] with its
    [isExecuted] flag set; the state after the pass is the state after
    those calls of [include()], in order, and the flag after the pass is
    set exactly when it was set at its start or one of those calls set it;
    a pass of the loop clears the flag and runs over [modules].  When
    inclusion only ever adds to the marked set, requests another pass
    exactly when it has added something, and stays within the finite
    [domain], the loop returns after a number [n] of passes no greater than
    one plus the number of items of [domain] not yet marked (with any fuel
    of at least [n], and not with less): every pass before the [n]-th
    leaves [needsTreeshakingPass] set, the [n]-th leaves it clear and marks
    nothing new (a fixed point).  With tree-shaking on,
    [includeStatements] runs this loop from the seeded state: it returns
    what the [n] passes leave, with the warnings of the external modules,
    and runs out of fuel below [n]. *)
Theorem treeshaking_reaches_fixed_point :
  (∀ (ms : list ModuleRef) w flag m,
      m ∈ (includePass moduleAt Module_include ms w flag).2
      ↔ ∃ l1 l2, ms = l1 ++ m :: l2
          ∧ Module_isExecuted
              (moduleAt (includePass moduleAt Module_include l1 w flag).1.1 m) = true)
  ∧ (∀ (ms : list ModuleRef) w flag,
      (includePass moduleAt Module_include ms w flag).1
      = forEachRequest Module_include
          (includePass moduleAt Module_include ms w flag).2 w flag)
  ∧ (∀ g w,
      treeshakingPass moduleAt Module_include g w
      = (set_needsTreeshakingPass
           (includePass moduleAt Module_include (modules g) w false).1.2 g,
         (includePass moduleAt Module_include (modules g) w false).1.1))
  ∧ (∀ g w,
      includedItems w ⊆ domain →
      ∃ n, (1 ≤ n ≤ S (size (domain ∖ includedItems w)))%nat
        ∧ (∀ fuel, (n ≤ fuel)%nat →
             treeshakingLoop moduleAt Module_include fuel g w
             = Returned (afterPasses moduleAt Module_include n g w, n))
        ∧ (∀ fuel, (fuel < n)%nat →
             treeshakingLoop moduleAt Module_include fuel g w = OutOfFuel)
        ∧ (∀ k, (1 ≤ k < n)%nat →
             needsTreeshakingPass (afterPasses moduleAt Module_include k g w).1 = true)
        ∧ needsTreeshakingPass (afterPasses moduleAt Module_include n g w).1 = false
        ∧ includedItems (afterPasses moduleAt Module_include n g w).2
          = includedItems (afterPasses moduleAt Module_include (n - 1) g w).2)
  ∧ (∀ entryModules g w,
      is_Some (treeshakingOptions g) →
      let seeded := seedEntryModules moduleAt Module_includeAllExports
                      markModuleAndImpureDependenciesAsExecuted entryModules w
                      (needsTreeshakingPass g) in
      let fixedPoint n :=
        afterPasses moduleAt Module_include n
          (set_needsTreeshakingPass seeded.2 g) seeded.1 in
      includedItems seeded.1 ⊆ domain →
      ∃ n, (1 ≤ n ≤ S (size (domain ∖ includedItems seeded.1)))%nat
        ∧ (∀ fuel, (n ≤ fuel)%nat →
             includeStatements moduleAt Module_include Module_includeAllExports
               Module_includeAllInBundle markModuleAndImpureDependenciesAsExecuted
               ExternalModule_warnUnusedImports fuel entryModules g w
             = Returned (warnUnusedImports ExternalModule_warnUnusedImports
                           (fixedPoint n).1 (fixedPoint n).2))
        ∧ (∀ fuel, (fuel < n)%nat →
             includeStatements moduleAt Module_include Module_includeAllExports
               Module_includeAllInBundle markModuleAndImpureDependenciesAsExecuted
               ExternalModule_warnUnusedImports fuel entryModules g w
             = OutOfFuel)
        ∧ needsTreeshakingPass (fixedPoint n).1 = false
        ∧ includedItems (fixedPoint n).2 = includedItems (fixedPoint (n - 1)%nat).2).
Proof using include_grows include_requests_pass include_in_domain.
  split_and!.
  - apply includePass_calls.
  - apply includePass_requests.
  - intros g w. unfold treeshakingPass.
    by destruct (includePass moduleAt Module_include (modules g) w false) as [[? ?] ?].
  - intros g w Hdom. by apply treeshakingLoop_terminates.
  - intros entryModules g w Hon seeded fixedPoint Hdom.
    destruct (treeshakingLoop_terminates (size (domain ∖ includedItems seeded.1))
                (set_needsTreeshakingPass seeded.2 g) seeded.1 Hdom (le_n _))
      as (n & Hn & Hret & Hout & _ & Hlast & Hfix).
    exists n. split_and!; [lia | lia | | | exact Hlast | exact Hfix].
    + intros fuel Hfuel. rewrite (includeStatements_on _ _ _ _ Hon). cbv zeta.
      fold seeded. rewrite (Hret fuel Hfuel). unfold fixedPoint.
      by destruct (afterPasses moduleAt Module_include n
                     (set_needsTreeshakingPass seeded.2 g) seeded.1) as [g2 w2].
    + intros fuel Hfuel. rewrite (includeStatements_on _ _ _ _ Hon). cbv zeta.
      fold seeded. by rewrite (Hout fuel Hfuel).
Qed.

(** X9. With tree-shaking on, and inclusion as the spec has it (it only adds,
    it requests a pass exactly when it added, within a finite domain),
    [includeStatements] returns once the fuel covers the passes needed, at
    most one more than the items left to mark after the seeding, and runs
    out of fuel below that; it returns with [needsTreeshakingPass] clear. *)
Theorem includeStatements_with_treeshaking_returns entryModules g w :
  is_Some (treeshakingOptions g) →
  let seeded := (seedEntryModules moduleAt Module_includeAllExports
                   markModuleAndImpureDependenciesAsExecuted entryModules w
                   (needsTreeshakingPass g)).1 in
  includedItems seeded ⊆ domain →
  ∃ n, (1 ≤ n ≤ S (size (domain ∖ includedItems seeded)))%nat
    ∧ (∀ fuel, (n ≤ fuel)%nat →
         ∃ g' w',
           includeStatements moduleAt Module_include Module_includeAllExports
             Module_includeAllInBundle markModuleAndImpureDependenciesAsExecuted
             ExternalModule_warnUnusedImports fuel entryModules g w
           = Returned (g', w')
           ∧ needsTreeshakingPass g' = false)
    ∧ (∀ fuel, (fuel < n)%nat →
         includeStatements moduleAt Module_include Module_includeAllExports
           Module_includeAllInBundle markModuleAndImpureDependenciesAsExecuted
           ExternalModule_warnUnusedImports fuel entryModules g w
         = OutOfFuel).
Proof using include_grows include_requests_pass include_in_domain.
  intros Hon seeded Hdom.
  destruct (treeshakingLoop_terminates (size (domain ∖ includedItems seeded))
              (set_needsTreeshakingPass
                 (seedEntryModules moduleAt Module_includeAllExports
                    markModuleAndImpureDependenciesAsExecuted entryModules w
                    (needsTreeshakingPass g)).2 g) seeded
              Hdom (le_n _)) as (n & Hn & Hret & Hout & _ & Hlast & _).
  exists n. split; [exact Hn|]. split.
  - intros fuel Hfuel. rewrite (includeStatements_on _ _ _ _ Hon). cbv zeta.
    fold seeded. rewrite (Hret fuel Hfuel).
    destruct (afterPasses moduleAt Module_include n _ seeded) as [g2 w2] eqn:Hafter.
    exists (warnUnusedImports ExternalModule_warnUnusedImports g2 w2).1,
           (warnUnusedImports ExternalModule_warnUnusedImports g2 w2).2.
    split; [by rewrite <- surjective_pairing|].
    by rewrite warnUnusedImports_needsTreeshakingPass.
  - intros fuel Hfuel. rewrite (includeStatements_on _ _ _ _ Hon). cbv zeta.
    fold seeded. by rewrite (Hout fuel Hfuel).
Qed.

End TreeshakingTermination.

(** ** [generateChunks] *)


Lemma sortByExecutionOrder_Permutation w (units : list ModuleRef) :
  sortByExecutionOrder Module_execIndex w units ≡ₚ units.
Proof using Type. apply merge_sort_Permutation. Qed.

Lemma sortByExecutionOrder_Sorted w (units : list ModuleRef) :
  Sorted (executesNoLater Module_execIndex w) (sortByExecutionOrder Module_execIndex w units).
Proof using Type.
  apply Sorted_merge_sort. intros a b. unfold executesNoLater. lia.
Qed.

Lemma filter_unique (l : list ModuleRef) m :
  NoDup l → m ∈ l → List.filter (fun x => bool_decide (x = m)) l = [m].
Proof using Type.
  induction 1 as [|a l Hnotin Hnodup IH]; intros Hin; [by apply elem_of_nil in Hin|].
  simpl. apply elem_of_cons in Hin as [->|Hin].
  - rewrite bool_decide_eq_true_2 by done. f_equal.
    clear IH Hnodup. induction l as [|b l IH]; simpl; [done|].
    apply not_elem_of_cons in Hnotin as [Hne Hnotin].
    rewrite bool_decide_eq_false_2 by done. by apply IH.
  - rewrite bool_decide_eq_false_2; [by apply IH|]. intros ->. done.
Qed.

Lemma NoDup_List_filter {A} (f : A → bool) (l : list A) :
  NoDup l → NoDup (List.filter f l).
Proof using Type.
  induction 1 as [|a l Hnotin Hnodup IH]; simpl; [constructor|].
  destruct (f a); [|done]. constructor; [|done].
  rewrite list_elem_of_In, filter_In, <- list_elem_of_In. tauto.
Qed.

Lemma filter_map_swap {A B} (p : B → bool) (f : A → B) (l : list A) :
  List.filter p (map f l) = map f (List.filter (fun x => p (f x)) l).
Proof using Type.
  induction l as [|x l IH]; simpl; [done|].
  destruct (p (f x)); simpl; by rewrite IH.
Qed.

(** C3. In the inline mode ([inlineDynamicImports] with [preserveModules]
    off) [generateChunks] builds one chunk besides the facades: the chunk
    of [this.modules] sorted by execution order, which therefore holds every
    module, included ones among them.  The result is that chunk followed by
    the facades generated for it, and it is the same whatever manual chunk
    grouping is passed along. *)
Theorem inline_dynamic_imports_single_chunk entryModules manualChunkModulesByAlias g w :
  preserveModules g = false →
  let '(chunks, facades, g') :=
    generateChunkLists moduleAt Module_isIncluded Chunk_initialEntryModules Chunk_link
      Chunk_generateFacades getChunkAssignments Module_execIndex
      entryModules manualChunkModulesByAlias true g w in
  ∃ chunk,
    chunks = [chunk]
    ∧ Chunk_orderedModules chunk ≡ₚ modules g
    ∧ Sorted (executesNoLater Module_execIndex w) (Chunk_orderedModules chunk)
    ∧ (∀ m, m ∈ modules g → Module_isIncluded w m = true →
            m ∈ Chunk_orderedModules chunk)
    ∧ facades = Chunk_generateFacades w chunk
    ∧ (generateChunks moduleAt Module_isIncluded Chunk_initialEntryModules Chunk_link
         Chunk_generateFacades getChunkAssignments Module_execIndex
         entryModules manualChunkModulesByAlias true g w).1 = chunk :: facades
    ∧ ∀ otherManualChunks,
        generateChunks moduleAt Module_isIncluded Chunk_initialEntryModules Chunk_link
          Chunk_generateFacades getChunkAssignments Module_execIndex
          entryModules otherManualChunks true g w
        = generateChunks moduleAt Module_isIncluded Chunk_initialEntryModules Chunk_link
            Chunk_generateFacades getChunkAssignments Module_execIndex
            entryModules manualChunkModulesByAlias true g w.
Proof using Type.
  intros Hpreserve. unfold generateChunks, generateChunkLists, initialChunks.
  rewrite Hpreserve. simpl. eexists. split_and!; try done.
  - simpl. apply sortByExecutionOrder_Permutation.
  - simpl. apply sortByExecutionOrder_Sorted.
  - simpl. intros m Hm _. by rewrite sortByExecutionOrder_Permutation.
  - by rewrite app_nil_r.
Qed.

(** C4. In the preserve-modules mode, with [modules] free of repetitions,
    the chunks that [generateChunks] builds besides the facades are, in
    order, one per module that is included or an entry point or has an
    included dynamic importer; each holds that one module and has it as its
    only entry module.  An included module is thus held by exactly one of
    these chunks, whose [entryModules] is the list of that module alone. *)
Theorem preserve_modules_one_chunk_per_module entryModules manualChunkModulesByAlias
    inlineDynamicImports g w :
  preserveModules g = true →
  NoDup (modules g) →
  let '(chunks, facades, g') :=
    generateChunkLists moduleAt Module_isIncluded Chunk_initialEntryModules Chunk_link
      Chunk_generateFacades getChunkAssignments Module_execIndex
      entryModules manualChunkModulesByAlias inlineDynamicImports g w in
  (∀ m, m ∈ modules g → Module_isIncluded w m = true →
     ∃ chunk,
       List.filter (fun c => bool_decide (m ∈ Chunk_orderedModules c)) chunks = [chunk]
       ∧ Chunk_orderedModules chunk = [m]
       ∧ Chunk_entryModules chunk = [m])
  ∧ (∀ chunk, chunk ∈ chunks →
       ∃ m, m ∈ modules g
         ∧ getsOwnChunk moduleAt Module_isIncluded w m = true
         ∧ Chunk_orderedModules chunk = [m]
         ∧ Chunk_entryModules chunk = [m])
  ∧ map Chunk_orderedModules chunks
    = map (fun m => [m]) (List.filter (getsOwnChunk moduleAt Module_isIncluded w) (modules g))
  ∧ (generateChunks moduleAt Module_isIncluded Chunk_initialEntryModules Chunk_link
       Chunk_generateFacades getChunkAssignments Module_execIndex
       entryModules manualChunkModulesByAlias inlineDynamicImports g w).1
    = chunks ++ facades.
Proof using Type.
  intros Hpreserve Hnodup. unfold generateChunks, generateChunkLists, initialChunks.
  rewrite Hpreserve. cbv zeta. cbn [fst].
  set (own := List.filter (getsOwnChunk moduleAt Module_isIncluded w) (modules g)).
  rewrite map_map. split_and!.
  - intros m Hm Hincluded. eexists. split_and!.
    + rewrite filter_map_swap. simpl.
      erewrite (List.filter_ext _ (fun x => bool_decide (x = m))).
      * rewrite filter_unique; [reflexivity | by apply NoDup_List_filter |].
        apply list_elem_of_In, filter_In. split; [by apply list_elem_of_In|].
        unfold getsOwnChunk. by rewrite Hincluded.
      * intros x. apply bool_decide_ext. rewrite list_elem_of_singleton. done.
    + done.
    + done.
  - intros chunk Hchunk. apply list_elem_of_fmap in Hchunk as (m & -> & Hm).
    apply list_elem_of_In, filter_In in Hm as [Hm Hown]. exists m.
    split_and!; [by apply list_elem_of_In | done..].
  - by rewrite map_map.
  - done.
Qed.

(** ** [build] *)


(** C9. When the loader comes back with no entry module, [build] throws
    and returns no chunks, whatever the other arguments and the fuel: the
    error is [You must supply options.input to rollup], unless
    [manualChunks] is a function and assigning the manual chunks throws
    first. *)
Theorem build_fails_without_entry_modules fuel entryModuleIds manualChunks
    inlineDynamicImports g w loaded byId w1 :
  ModuleLoader_addEntryModules (normalizeEntryModules entryModuleIds) true
    match manualChunks with ManualChunksObject o => Some o | _ => None end
    (moduleById g, w) = inr (loaded, (byId, w1)) →
  loaded_entryModules loaded = [] →
  let outcome :=
    build moduleAt externalAt Module_isIncluded Module_linkDependencies
      Module_bindReferences Module_include Module_includeAllExports
      Module_includeAllInBundle markModuleAndImpureDependenciesAsExecuted
      ExternalModule_warnUnusedImports analyseModuleExecution relativeId
      exportedVariable exportShimVariable externalVariable
      Chunk_initialEntryModules Chunk_link Chunk_generateFacades getChunkAssignments
      Module_execIndex ModuleLoader_addEntryModules ModuleLoader_assignManualChunks
      fuel entryModuleIds manualChunks inlineDynamicImports g w in
  (∃ e, outcome = Threw e)
  ∧ (∀ result, outcome ≠ Returned result)
  ∧ match manualChunks with
    | ManualChunksFunction f =>
        match ModuleLoader_assignManualChunks f (byId, w1) with
        | inl e => outcome = Threw e
        | inr _ => outcome = Threw (PlainError "You must supply options.input to rollup")
        end
    | _ => outcome = Threw (PlainError "You must supply options.input to rollup")
    end.
Proof using Type.
  intros Hload Hempty outcome.
  assert (match manualChunks with
          | ManualChunksFunction f =>
              match ModuleLoader_assignManualChunks f (byId, w1) with
              | inl e => outcome = Threw e
              | inr _ => outcome = Threw (PlainError "You must supply options.input to rollup")
              end
          | _ => outcome = Threw (PlainError "You must supply options.input to rollup")
          end) as Hout.
  { subst outcome. unfold build, parseModules, mbind, Outcome_bind, liftResult.
    rewrite Hload.
    destruct manualChunks as [|o|f]; rewrite ?Hempty; try done.
    destruct (ModuleLoader_assignManualChunks f (byId, w1)) as [e|[byId' w2]];
      [done|]. reflexivity. }
  split_and!; [| |exact Hout].
  - destruct manualChunks as [|o|f]; eauto.
    destruct (ModuleLoader_assignManualChunks f (byId, w1)); eauto.
  - intros result. destruct manualChunks as [|o|f]; try congruence.
    destruct (ModuleLoader_assignManualChunks f (byId, w1)); congruence.
Qed.

(** ** Further properties of [Graph.ts] *)

(** *** [normalizeEntryModules] *)

(** X1. Whatever the form of the input, the unresolved entries keep the ids in
    their order, none has a file name or an importer, and only the record
    form names them, by its keys; an empty array or record gives none. *)
Theorem normalizeEntryModules_shape entryModules :
  let unresolved := normalizeEntryModules entryModules in
  Forall (fun u => fileName u = None ∧ unresolved_importer u = None) unresolved
  ∧ match entryModules with
    | InputString s =>
        map unresolved_id unresolved = [s] ∧ map unresolved_name unresolved = [None]
    | InputArray ids =>
        map unresolved_id unresolved = ids
        ∧ Forall (fun u => unresolved_name u = None) unresolved
    | InputRecord entries =>
        map unresolved_id unresolved = entries.*2
        ∧ map unresolved_name unresolved = Some <$> entries.*1
    end
  ∧ (unresolved = [] ↔ entryModules = InputArray [] ∨ entryModules = InputRecord []).
Proof using Type.
  destruct entryModules as [s|ids|entries]; simpl; split_and!.
  - by repeat constructor.
  - done.
  - done.
  - split; [done | intros [?|?]; done].
  - induction ids; simpl; constructor; done.
  - induction ids as [|i ids IH]; simpl; [done | by rewrite IH].
  - induction ids; simpl; constructor; done.
  - split; [destruct ids; [by left | done] | intros [Heq|Heq]; by simplify_eq].
  - induction entries; simpl; constructor; done.
  - induction entries as [|e entries IH]; simpl; [done | by rewrite IH].
  - induction entries as [|e entries IH]; simpl; [done | by rewrite IH].
  - split; [destruct entries; [by right | done] | intros [Heq|Heq]; by simplify_eq].
Qed.

(** *** The constructor *)

Lemma cachedModules_snoc (ms : list ModuleJSON) (m : ModuleJSON) :
  foldl (fun acc m => <[json_id m := m]> acc) (∅ : gmap string ModuleJSON) (ms ++ [m])
  = <[json_id m := m]> (foldl (fun acc m => <[json_id m := m]> acc) ∅ ms).
Proof using Type. by rewrite foldl_app. Qed.

(** X2. [this.cachedModules] is keyed by module id, and of several cached
    modules with one id the last in [options.cache.modules] is the one kept
    ([Map.set] overwrites); without cached modules the map is empty. *)
Theorem cachedModules_last_wins (c : CacheOption CacheValue ModuleJSON) i :
  initialCachedModules json_id c !! i
  = match c with
    | CacheObject (Some ms) _ =>
        last (List.filter (fun m => bool_decide (json_id m = i)) ms)
    | _ => None
    end.
Proof using Type.
  destruct c as [| |[ms|] plugins]; simpl; try apply lookup_empty.
  induction ms as [|m ms IH] using rev_ind; [apply lookup_empty|].
  rewrite cachedModules_snoc, List.filter_app. simpl.
  rewrite lookup_insert. case_bool_decide as Hid.
  - rewrite decide_True by done. by rewrite last_snoc.
  - rewrite decide_False by done. by rewrite app_nil_r.
Qed.



(** *** [getCache] *)

Lemma evictExpired_idempotent cacheExpiry cache :
  evictExpired cacheExpiry (evictExpired cacheExpiry cache) = evictExpired cacheExpiry cache.
Proof using Type.
  apply map_eq. intros key. apply option_eq. intros e.
  rewrite !evictExpired_lookup.
  split; [intros [[Hl Hlt] _]; by split | intros [Hl Hlt]; by split_and!].
Qed.

Lemma evictPluginCache_idempotent cacheExpiry pc :
  evictPluginCache cacheExpiry (evictPluginCache cacheExpiry pc)
  = evictPluginCache cacheExpiry pc.
Proof using Type.
  apply map_eq. intros plugin. apply option_eq. intros c.
  rewrite evictPluginCache_lookup. split.
  - intros (c' & Hc' & -> & _). rewrite Hc'.
    apply evictPluginCache_lookup in Hc' as (c0 & _ & -> & _).
    by rewrite evictExpired_idempotent.
  - intros Hc. exists c. split; [done|].
    apply evictPluginCache_lookup in Hc as (c0 & Hc0 & -> & key & e & He & Hlt).
    split; [by rewrite evictExpired_idempotent|].
    exists key, e. split; [|done]. by apply evictExpired_lookup.
Qed.

(** X4. Taking the cache snapshot twice gives the same cache as taking it once
    and leaves the graph as the first snapshot left it; a snapshot changes
    no field of the graph but [pluginCache], and with caching off
    ([pluginCache] undefined) it changes nothing and returns no plugin
    cache. *)
Theorem getCache_idempotent g w :
  getCache Module_toJSON (getCache Module_toJSON g w).2 w = getCache Module_toJSON g w
  ∧ set_pluginCache (pluginCache g) (getCache Module_toJSON g w).2 = g
  ∧ (pluginCache g = None →
       (getCache Module_toJSON g w).2 = g
       ∧ cache_plugins (getCache Module_toJSON g w).1 = None).
Proof using Type.
  unfold getCache. simpl. split_and!.
  - destruct (pluginCache g) as [pc|]; simpl; [|done].
    by rewrite evictPluginCache_idempotent.
  - by destruct g.
  - intros Hnone. rewrite Hnone. simpl. split; [|done]. destruct g. simpl in *. by subst.
Qed.


(** *** [getModuleInfo] *)

Lemma collectImportedIds_unresolved (d : ModuleData ModuleRef ExternalRef) srcs src :
  src ∈ srcs → Module_resolvedIds d !! src = None →
  collectImportedIds d srcs
  = Threw (PlainError "Cannot read property 'id' of undefined").
Proof using Type.
  intros Hin Hnone. induction srcs as [|s srcs IH]; [by apply elem_of_nil in Hin|].
  simpl. unfold resolvedIdOf at 1.
  destruct (Module_resolvedIds d !! s) as [i|] eqn:Hs; [|done]. simpl.
  apply elem_of_cons in Hin as [->|Hin]; [congruence|].
  by rewrite IH.
Qed.

(** X6. For a module that is in [moduleById] but has a source without an entry
    in [resolvedIds], [getModuleInfo] throws too: reading [.id] of the
    missing entry is a type error, not the [Unable to find module] error. *)
Theorem getModuleInfo_unresolved_source g w moduleId m src :
  mapGet moduleId (moduleById g) = Some (IsModule m) →
  src ∈ Module_sources (moduleAt w m) →
  Module_resolvedIds (moduleAt w m) !! src = None →
  getModuleInfo moduleAt externalAt moduleId g w
  = Threw (PlainError "Cannot read property 'id' of undefined").
Proof using Type.
  intros Hget Hsrc Hnone. unfold getModuleInfo. rewrite Hget.
  by rewrite (collectImportedIds_unresolved _ _ src).
Qed.

(** *** What [link] leaves alone *)


(** A loop whose every step only adds to [onwarn] only adds to [onwarn]. *)
Lemma foldl_onwarn_only {A} (f : Graph ModuleRef ExternalRef CacheValue ModuleJSON → A →
                                 Graph ModuleRef ExternalRef CacheValue ModuleJSON)
    (l : list A) g :
  (∀ g a, ∃ ws, f g a = set_onwarn (onwarn g ++ ws) g) →
  ∃ ws, foldl f g l = set_onwarn (onwarn g ++ ws) g.
Proof using Type.
  intros Hf. revert g. induction l as [|a l IH]; intros g; simpl.
  - exists []. by rewrite app_nil_r, set_onwarn_id.
  - destruct (Hf g a) as [ws1 Hstep]. destruct (IH (f g a)) as [ws2 Hrest].
    exists (ws1 ++ ws2). rewrite Hrest, Hstep. simpl. by rewrite <- app_assoc.
Qed.

Lemma warnForMissingExports_onwarn_only g w :
  ∃ ws, warnForMissingExports moduleAt externalAt relativeId exportedVariable
          exportShimVariable externalVariable g w
        = set_onwarn (onwarn g ++ ws) g.
Proof using Type.
  unfold warnForMissingExports. apply foldl_onwarn_only. intros g1 m.
  apply foldl_onwarn_only. intros g2 entry. unfold checkImportDescription.
  destruct (isMissingExport _ _ _ g2 w entry.2).
  - eexists [_]. reflexivity.
  - exists []. by rewrite app_nil_r, set_onwarn_id.
Qed.

(** X7. [link] changes two fields of the graph and no other: [modules], and
    [onwarn], to which it only adds, so that no earlier warning is lost or
    reordered.  The options, [moduleById], the plugin cache and the phase
    are as before. *)
Theorem link_changes_modules_and_onwarn entryModules g w :
  let g' := (link moduleAt externalAt Module_linkDependencies Module_bindReferences
               analyseModuleExecution relativeId exportedVariable exportShimVariable
               externalVariable entryModules g w).1 in
  g' = set_onwarn (onwarn g') (set_modules (modules g') g)
  ∧ onwarn g `prefix_of` onwarn g'.
Proof using Type.
  unfold link.
  destruct (forEachWarn Module_linkDependencies (modules g) w) as [w1 ws1].
  destruct (analyseModuleExecution entryModules w1) as [w2 [orderedModules cyclePaths]].
  rewrite warn_cycles_eq. cbn [modules set_modules].
  destruct (forEachWarn Module_bindReferences orderedModules w2) as [w3 ws3].
  cbn [fst]. rewrite !warnAll_eq.
  match goal with
  | |- context [warnForMissingExports _ _ _ _ _ _ ?g4 w3] =>
      destruct (warnForMissingExports_onwarn_only g4 w3) as [ws4 ->]
  end.
  simpl. split; [done|].
  rewrite <- !app_assoc. by apply prefix_app_r.
Qed.

(** *** [includeStatements] *)

Lemma forEachWarn_fst {A} (f : A → W → W * list RollupWarning) (l : list A) w :
  ∃ w' ws, forEachWarn f l w = (w', ws).
Proof using Type. destruct (forEachWarn f l w); eauto. Qed.




(** X10. The calls of a pass follow the order of [modules], at most one for each
    occurrence; a pass never lowers the flag it started from; and a pass in
    which [include()] is not called leaves the modules and the flag as they
    were. *)
Theorem includePass_calls_in_order (ms : list ModuleRef) w flag :
  let '(w', flag', calls) := includePass moduleAt Module_include ms w flag in
  calls `sublist_of` ms
  ∧ (flag = true → flag' = true)
  ∧ (calls = [] → w' = w ∧ flag' = flag).
Proof using Type.
  revert w flag. induction ms as [|m ms IH]; intros w flag; simpl.
  - split_and!; done.
  - destruct (Module_isExecuted (moduleAt w m)).
    + destruct (Module_include m w) as [w1 requested].
      specialize (IH w1 (flag || requested)).
      destruct (includePass moduleAt Module_include ms w1 (flag || requested))
        as [[w2 flag2] calls].
      destruct IH as (Hsub & Hflag & _). split_and!.
      * by apply sublist_skip.
      * intros ->. by apply Hflag.
      * done.
    + specialize (IH w flag).
      destruct (includePass moduleAt Module_include ms w flag) as [[w2 flag2] calls].
      destruct IH as (Hsub & Hflag & Hnone). split_and!; [|done|done].
      by apply sublist_cons.
Qed.

(** *** [generateChunks] *)

Lemma Sorted_singleton_exec w (m : ModuleRef) :
  Sorted (executesNoLater Module_execIndex w) [m].
Proof using Type. repeat constructor. Qed.

(** X11. In every mode the result of [generateChunks] is the chunks followed by
    the facades generated for them, in order; every chunk has been linked;
    and the modules of every chunk are in execution order. *)
Theorem generateChunks_structure entryModules manualChunkModulesByAlias
    inlineDynamicImports g w :
  let '(chunks, facades, g') :=
    generateChunkLists moduleAt Module_isIncluded Chunk_initialEntryModules Chunk_link
      Chunk_generateFacades getChunkAssignments Module_execIndex
      entryModules manualChunkModulesByAlias inlineDynamicImports g w in
  generateChunks moduleAt Module_isIncluded Chunk_initialEntryModules Chunk_link
    Chunk_generateFacades getChunkAssignments Module_execIndex
    entryModules manualChunkModulesByAlias inlineDynamicImports g w
  = (chunks ++ flat_map (Chunk_generateFacades w) chunks, g')
  ∧ facades = flat_map (Chunk_generateFacades w) chunks
  ∧ Forall (fun c => Chunk_linkInfo c
                     = Some (Chunk_link w {| Chunk_orderedModules := Chunk_orderedModules c;
                                             Chunk_entryModules := Chunk_entryModules c;
                                             Chunk_linkInfo := None |})) chunks
  ∧ Forall (fun c => Sorted (executesNoLater Module_execIndex w)
                            (Chunk_orderedModules c)) chunks.
Proof using Type.
  unfold generateChunks, generateChunkLists, initialChunks.
  destruct (preserveModules g); [|destruct inlineDynamicImports]; cbv zeta;
    split_and!; try done.
  - apply Forall_forall. intros c Hc. apply list_elem_of_fmap in Hc as (c0 & -> & Hc0).
    by apply list_elem_of_fmap in Hc0 as (m & -> & _).
  - apply Forall_forall. intros c Hc. apply list_elem_of_fmap in Hc as (c0 & -> & Hc0).
    apply list_elem_of_fmap in Hc0 as (m & -> & _). apply Sorted_singleton_exec.
  - by repeat constructor.
  - repeat constructor. apply sortByExecutionOrder_Sorted.
  - apply Forall_forall. intros c Hc. apply list_elem_of_fmap in Hc as (c0 & -> & Hc0).
    by apply list_elem_of_fmap in Hc0 as (ms & -> & _).
  - apply Forall_forall. intros c Hc. apply list_elem_of_fmap in Hc as (c0 & -> & Hc0).
    apply list_elem_of_fmap in Hc0 as (ms & -> & _). apply sortByExecutionOrder_Sorted.
Qed.

(** X12. [generateChunks] touches the graph in the inline mode only, where
    sorting the one chunk sorts [this.modules] itself: [modules] then holds
    the same modules in execution order.  In the other modes, and in every
    other field, the graph is as before. *)
Theorem generateChunks_sorts_modules_in_place entryModules manualChunkModulesByAlias
    inlineDynamicImports g w :
  let g' := (generateChunks moduleAt Module_isIncluded Chunk_initialEntryModules
               Chunk_link Chunk_generateFacades getChunkAssignments Module_execIndex
               entryModules manualChunkModulesByAlias inlineDynamicImports g w).2 in
  g' = set_modules (modules g') g
  ∧ modules g' ≡ₚ modules g
  ∧ (if negb (preserveModules g) && inlineDynamicImports
     then Sorted (executesNoLater Module_execIndex w) (modules g')
     else g' = g).
Proof using Type.
  unfold generateChunks, generateChunkLists, initialChunks.
  destruct (preserveModules g); [|destruct inlineDynamicImports]; simpl.
  - split_and!; [by destruct g | done | done].
  - split_and!; [done | apply sortByExecutionOrder_Permutation
                 | apply sortByExecutionOrder_Sorted].
  - split_and!; [by destruct g | done | done].
Qed.

(** X13. In the preserve-modules mode a module of [modules] is held by one of
    the chunks exactly when it is included, or is an entry point, or has an
    included dynamic importer: an entry point that is not included still
    gets its chunk, and a module that is none of the three gets none. *)
Theorem preserve_modules_keeps_entry_points entryModules manualChunkModulesByAlias
    inlineDynamicImports g w m :
  preserveModules g = true →
  m ∈ modules g →
  (∃ chunk,
      chunk ∈ (generateChunkLists moduleAt Module_isIncluded Chunk_initialEntryModules
                 Chunk_link Chunk_generateFacades getChunkAssignments Module_execIndex
                 entryModules manualChunkModulesByAlias inlineDynamicImports g w).1.1
      ∧ m ∈ Chunk_orderedModules chunk)
  ↔ Module_isIncluded w m = true
    ∨ Module_isEntryPoint (moduleAt w m) = true
    ∨ Module_includedDynamicImporters (moduleAt w m) ≠ [].
Proof using Type.
  intros Hpreserve Hm. unfold generateChunkLists, initialChunks. rewrite Hpreserve.
  cbv zeta. cbn [fst].
  assert (getsOwnChunk moduleAt Module_isIncluded w m = true
          ↔ Module_isIncluded w m = true
            ∨ Module_isEntryPoint (moduleAt w m) = true
            ∨ Module_includedDynamicImporters (moduleAt w m) ≠ []) as Hown.
  { unfold getsOwnChunk. rewrite !orb_true_iff, bool_decide_eq_true.
    destruct (Module_includedDynamicImporters (moduleAt w m)); simpl.
    - split; [intros [[?|?]|?]; [by left | by right; left | lia]
             | intros [?|[?|?]]; [by left; left | by left; right | done]].
    - split; [intros _; by right; right | intros _; right; lia]. }
  rewrite <- Hown. split.
  - intros (chunk & Hchunk & Hin).
    apply list_elem_of_fmap in Hchunk as (c0 & -> & Hc0).
    apply list_elem_of_fmap in Hc0 as (m' & -> & Hm').
    simpl in Hin. apply list_elem_of_singleton in Hin as ->.
    by apply list_elem_of_In, filter_In in Hm' as [_ ?].
  - intros Hgets. eexists. split.
    + apply list_elem_of_fmap. eexists. split; [reflexivity|].
      apply list_elem_of_fmap. exists m. split; [reflexivity|].
      apply list_elem_of_In, filter_In. split; [by apply list_elem_of_In | done].
    + simpl. by apply list_elem_of_singleton.
Qed.

(** *** [parseModules] and [build] *)

(** *** [parseModules] and [build] *)

Lemma classifyModules_fold (byId : list (string * AnyModule ModuleRef ExternalRef)) g :
  foldl (fun g entry =>
           match entry.2 with
           | IsModule m => set_modules (modules g ++ [m]) g
           | IsExternal e => set_externalModules (externalModules g ++ [e]) g
           end) g byId
  = set_externalModules (externalModules g ++ externalsOf byId)
      (set_modules (modules g ++ modulesOf byId) g).
Proof using Type.
  revert g. induction byId as [|[key [m|e]] byId IH]; intros g; simpl.
  - rewrite !app_nil_r. by destruct g.
  - rewrite IH. simpl. by rewrite <- app_assoc.
  - rewrite IH. simpl. by rewrite <- app_assoc.
Qed.

Lemma modulesOf_externalsOf_length (byId : list (string * AnyModule ModuleRef ExternalRef)) :
  (length (modulesOf byId) + length (externalsOf byId))%nat = length byId.
Proof using Type.
  induction byId as [|[key [m|e]] byId IH]; simpl; [done|..];
    unfold modulesOf, externalsOf in *; simpl; lia.
Qed.

Lemma parseModules_Returned entryModuleIds manualChunks g w loaded g' w' :
  parseModules ModuleLoader_addEntryModules ModuleLoader_assignManualChunks
    entryModuleIds manualChunks g w = Returned (loaded, (g', w')) →
  loaded_entryModules loaded ≠ []
  ∧ (∃ st, ModuleLoader_addEntryModules (normalizeEntryModules entryModuleIds) true
             match manualChunks with ManualChunksObject o => Some o | _ => None end
             (moduleById g, w) = inr (loaded, st))
  ∧ g' = set_externalModules (externalModules g ++ externalsOf (moduleById g'))
           (set_modules (modules g ++ modulesOf (moduleById g'))
              (set_moduleById (moduleById g') g)).
Proof using Type.
  unfold parseModules, mbind, Outcome_bind, liftResult.
  destruct (ModuleLoader_addEntryModules _ _ _ _) as [e|[loaded0 [byId w1]]]; [done|].
  assert (∀ byId2 w2,
            (if bool_decide (length (loaded_entryModules loaded0) = 0%nat)
             then Threw (PlainError "You must supply options.input to rollup")
             else Returned (loaded0, (classifyModules (set_moduleById byId2 g), w2)))
            = Returned (loaded, (g', w')) →
            loaded_entryModules loaded ≠ []
            ∧ (∃ st, @inr Exception _ (loaded0, (byId, w1)) = inr (loaded, st))
            ∧ g' = set_externalModules (externalModules g ++ externalsOf (moduleById g'))
                     (set_modules (modules g ++ modulesOf (moduleById g'))
                        (set_moduleById (moduleById g') g))) as Hcheck.
  { intros byId2 w2. case_bool_decide as Hlen; [done|]. intros [= <- <- <-].
    split_and!.
    - intros Hnil. by rewrite Hnil in Hlen.
    - by eexists.
    - unfold classifyModules. rewrite classifyModules_fold. reflexivity. }
  destruct manualChunks as [|o|f]; try apply Hcheck.
  destruct (ModuleLoader_assignManualChunks f (byId, w1)) as [e|[byId2 w2]]; [done|].
  apply Hcheck.
Qed.

Lemma parseModules_loader entryModuleIds manualChunks g w loaded g' w' :
  parseModules ModuleLoader_addEntryModules ModuleLoader_assignManualChunks
    entryModuleIds manualChunks g w = Returned (loaded, (g', w')) →
  ∃ byId w1,
    ModuleLoader_addEntryModules (normalizeEntryModules entryModuleIds) true
      match manualChunks with ManualChunksObject o => Some o | _ => None end
      (moduleById g, w) = inr (loaded, (byId, w1))
    ∧ match manualChunks with
      | ManualChunksFunction f =>
          ModuleLoader_assignManualChunks f (byId, w1) = inr (moduleById g', w')
      | _ => moduleById g' = byId ∧ w' = w1
      end.
Proof using Type.
  unfold parseModules, mbind, Outcome_bind, liftResult.
  destruct (ModuleLoader_addEntryModules _ _ _ _) as [e|[loaded0 [byId w1]]]; [done|].
  assert (∀ byId2 w2,
            (if bool_decide (length (loaded_entryModules loaded0) = 0%nat)
             then Threw (PlainError "You must supply options.input to rollup")
             else Returned (loaded0, (classifyModules (set_moduleById byId2 g), w2)))
            = Returned (loaded, (g', w')) →
            loaded0 = loaded ∧ moduleById g' = byId2 ∧ w' = w2) as Hcheck.
  { intros byId2 w2. case_bool_decide as Hlen; [done|]. intros [= <- <- <-].
    split_and!; [done| |done].
    unfold classifyModules. by rewrite classifyModules_fold. }
  intros Hret. exists byId, w1.
  destruct manualChunks as [|o|f].
  - apply Hcheck in Hret as (-> & <- & ->). done.
  - apply Hcheck in Hret as (-> & <- & ->). done.
  - destruct (ModuleLoader_assignManualChunks f (byId, w1)) as [e|[byId2 w2]]; [done|].
    apply Hcheck in Hret as (-> & <- & ->). done.
Qed.

(** X14. When [parseModules] returns, the loader had found at least one entry
    module, and the graph differs from the one before in [moduleById],
    which is the map as the loader left it (as [assignManualChunks] left
    it, when [manualChunks] is a function), and in [modules] and
    [externalModules], to which the [Module]s and the [ExternalModule]s of
    [moduleById] have been appended in its order: each value of the map
    lands in exactly one of the two lists. *)
Theorem parseModules_classifies entryModuleIds manualChunks g w loaded g' w' :
  parseModules ModuleLoader_addEntryModules ModuleLoader_assignManualChunks
    entryModuleIds manualChunks g w = Returned (loaded, (g', w')) →
  loaded_entryModules loaded ≠ []
  ∧ (∃ byId w1,
       ModuleLoader_addEntryModules (normalizeEntryModules entryModuleIds) true
         match manualChunks with ManualChunksObject o => Some o | _ => None end
         (moduleById g, w) = inr (loaded, (byId, w1))
       ∧ match manualChunks with
         | ManualChunksFunction f =>
             ModuleLoader_assignManualChunks f (byId, w1) = inr (moduleById g', w')
         | _ => moduleById g' = byId ∧ w' = w1
         end)
  ∧ modules g' = modules g ++ modulesOf (moduleById g')
  ∧ externalModules g' = externalModules g ++ externalsOf (moduleById g')
  ∧ (length (modulesOf (moduleById g')) + length (externalsOf (moduleById g')))%nat
    = length (moduleById g')
  ∧ (∀ m, m ∈ modulesOf (moduleById g') ↔ ∃ key, (key, IsModule m) ∈ moduleById g')
  ∧ (∀ e, e ∈ externalsOf (moduleById g') ↔ ∃ key, (key, IsExternal e) ∈ moduleById g')
  ∧ g' = set_externalModules (externalModules g')
           (set_modules (modules g') (set_moduleById (moduleById g') g)).
Proof using Type.
  intros Hparse. pose proof (parseModules_loader _ _ _ _ _ _ _ Hparse) as Hloader.
  apply parseModules_Returned in Hparse as (Hentries & _ & Hg').
  assert (modules g' = modules g ++ modulesOf (moduleById g')) as Hm
    by by rewrite Hg' at 1.
  assert (externalModules g' = externalModules g ++ externalsOf (moduleById g')) as He
    by by rewrite Hg' at 1.
  split_and!.
  - exact Hentries.
  - exact Hloader.
  - exact Hm.
  - exact He.
  - apply modulesOf_externalsOf_length.
  - intros m. unfold modulesOf. rewrite list_elem_of_omap. split.
    + intros ([key [m'|e]] & Hin & Heq); simplify_eq/=. eauto.
    + intros [key Hin]. exists (key, IsModule m). done.
  - intros e. unfold externalsOf. rewrite list_elem_of_omap. split.
    + intros ([key [m|e']] & Hin & Heq); simplify_eq/=. eauto.
    + intros [key Hin]. exists (key, IsExternal e). done.
  - rewrite Hm, He. exact Hg'.
Qed.


Lemma seedEntryModules_snoc entryModules m w flag :
  seedEntryModules moduleAt Module_includeAllExports
    markModuleAndImpureDependenciesAsExecuted (entryModules ++ [m]) w flag
  = let seeded := seedEntryModules moduleAt Module_includeAllExports
                    markModuleAndImpureDependenciesAsExecuted entryModules w flag in
    let request :=
      if bool_decide (Module_preserveSignature (moduleAt seeded.1 m) ≠ PreserveFalse)
      then Module_includeAllExports m seeded.1
      else markModuleAndImpureDependenciesAsExecuted m seeded.1 in
    (request.1, seeded.2 || request.2).
Proof using Type.
  unfold seedEntryModules. revert w flag.
  induction entryModules as [|a l IH]; intros w flag; simpl.
  - unfold seedEntryModule. by destruct (if bool_decide _ then _ else _).
  - destruct (seedEntryModule _ _ _ a w) as [w1 r]. apply IH.
Qed.

Lemma includeStatements_off fuel entryModules g w :
  treeshakingOptions g = None →
  includeStatements moduleAt Module_include Module_includeAllExports
    Module_includeAllInBundle markModuleAndImpureDependenciesAsExecuted
    ExternalModule_warnUnusedImports fuel entryModules g w
  = includeStatements moduleAt Module_include Module_includeAllExports
      Module_includeAllInBundle markModuleAndImpureDependenciesAsExecuted
      ExternalModule_warnUnusedImports O entryModules g w
  ∧ includeStatements moduleAt Module_include Module_includeAllExports
      Module_includeAllInBundle markModuleAndImpureDependenciesAsExecuted
      ExternalModule_warnUnusedImports fuel entryModules g w ≠ OutOfFuel.
Proof using Type.
  intros Hoff. unfold includeStatements.
  destruct (seedEntryModules moduleAt Module_includeAllExports
              markModuleAndImpureDependenciesAsExecuted entryModules w
              (needsTreeshakingPass g)) as [w1 flag1].
  cbv zeta. simpl. rewrite Hoff.
  by destruct (forEachRequest Module_includeAllInBundle (modules g) w1 flag1).
Qed.

Lemma link_treeshakingOptions entryModules g w :
  treeshakingOptions
    (link moduleAt externalAt Module_linkDependencies Module_bindReferences
       analyseModuleExecution relativeId exportedVariable exportShimVariable
       externalVariable entryModules g w).1
  = treeshakingOptions g.
Proof using Type.
  unfold link.
  destruct (forEachWarn Module_linkDependencies (modules g) w) as [w1 ws1].
  destruct (analyseModuleExecution entryModules w1) as [w2 [orderedModules cyclePaths]].
  rewrite warn_cycles_eq. cbn [modules set_modules].
  destruct (forEachWarn Module_bindReferences orderedModules w2) as [w3 ws3].
  cbn [fst]. rewrite !warnAll_eq.
  match goal with
  | |- context [warnForMissingExports _ _ _ _ _ _ ?g4 w3] =>
      destruct (warnForMissingExports_onwarn_only g4 w3) as [ws4 ->]
  end.
  done.
Qed.

(** X15. A [build] that returns its chunks had at least one entry module from
    the loader, and leaves the graph in the phase [GENERATE]. *)
Theorem build_returns_with_entry_modules fuel entryModuleIds manualChunks
    inlineDynamicImports g w chunks g' w' :
  build moduleAt externalAt Module_isIncluded Module_linkDependencies
    Module_bindReferences Module_include Module_includeAllExports
    Module_includeAllInBundle markModuleAndImpureDependenciesAsExecuted
    ExternalModule_warnUnusedImports analyseModuleExecution relativeId
    exportedVariable exportShimVariable externalVariable
    Chunk_initialEntryModules Chunk_link Chunk_generateFacades getChunkAssignments
    Module_execIndex ModuleLoader_addEntryModules ModuleLoader_assignManualChunks
    fuel entryModuleIds manualChunks inlineDynamicImports g w
  = Returned (chunks, (g', w')) →
  phase g' = GENERATE
  ∧ ∃ loaded st,
      ModuleLoader_addEntryModules (normalizeEntryModules entryModuleIds) true
        match manualChunks with ManualChunksObject o => Some o | _ => None end
        (moduleById g, w) = inr (loaded, st)
      ∧ loaded_entryModules loaded ≠ [].
Proof using Type.
  unfold build. unfold mbind at 1, Outcome_bind at 1.
  destruct (parseModules _ _ entryModuleIds manualChunks g w)
    as [[loaded [g1 w1]]| |] eqn:Hparse; [|done|done].
  apply parseModules_Returned in Hparse as (Hentries & [st Hload] & _).
  destruct (link _ _ _ _ _ _ _ _ _ _ _ _) as [g3 w3].
  unfold mbind, Outcome_bind.
  destruct (includeStatements _ _ _ _ _ _ _ _ _ _) as [[g4 w4]| |]; [|done|done].
  destruct (generateChunks _ _ _ _ _ _ _ _ _ _ _ _) as [chunks5 g5].
  intros [= <- <- <-]. split; [done|]. eauto.
Qed.

(** X16. With tree-shaking off the outcome of [build] does not depend on the
    fuel: the fixed-point loop is never entered, so [build] returns or
    throws, with no fuel at all as with any. *)
Theorem build_without_treeshaking fuel entryModuleIds manualChunks
    inlineDynamicImports g w :
  treeshakingOptions g = None →
  build moduleAt externalAt Module_isIncluded Module_linkDependencies
    Module_bindReferences Module_include Module_includeAllExports
    Module_includeAllInBundle markModuleAndImpureDependenciesAsExecuted
    ExternalModule_warnUnusedImports analyseModuleExecution relativeId
    exportedVariable exportShimVariable externalVariable
    Chunk_initialEntryModules Chunk_link Chunk_generateFacades getChunkAssignments
    Module_execIndex ModuleLoader_addEntryModules ModuleLoader_assignManualChunks
    fuel entryModuleIds manualChunks inlineDynamicImports g w
  = build moduleAt externalAt Module_isIncluded Module_linkDependencies
      Module_bindReferences Module_include Module_includeAllExports
      Module_includeAllInBundle markModuleAndImpureDependenciesAsExecuted
      ExternalModule_warnUnusedImports analyseModuleExecution relativeId
      exportedVariable exportShimVariable externalVariable
      Chunk_initialEntryModules Chunk_link Chunk_generateFacades getChunkAssignments
      Module_execIndex ModuleLoader_addEntryModules ModuleLoader_assignManualChunks
      O entryModuleIds manualChunks inlineDynamicImports g w
  ∧ build moduleAt externalAt Module_isIncluded Module_linkDependencies
      Module_bindReferences Module_include Module_includeAllExports
      Module_includeAllInBundle markModuleAndImpureDependenciesAsExecuted
      ExternalModule_warnUnusedImports analyseModuleExecution relativeId
      exportedVariable exportShimVariable externalVariable
      Chunk_initialEntryModules Chunk_link Chunk_generateFacades getChunkAssignments
      Module_execIndex ModuleLoader_addEntryModules ModuleLoader_assignManualChunks
      fuel entryModuleIds manualChunks inlineDynamicImports g w ≠ OutOfFuel.
Proof using Type.
  intros Hoff. unfold build. unfold mbind at 1 3 5, Outcome_bind at 1 3 5.
  destruct (parseModules _ _ entryModuleIds manualChunks g w)
    as [[loaded [g1 w1]]| |] eqn:Hparse; [|done|].
  - apply parseModules_Returned in Hparse as (_ & _ & Hg1).
    assert (treeshakingOptions g1 = None) as Hoff1 by (rewrite Hg1; exact Hoff).
    pose proof (link_treeshakingOptions (loaded_entryModules loaded)
                  (set_phase ANALYSE g1) w1) as Hlink.
    destruct (link _ _ _ _ _ _ _ _ _ _ (set_phase ANALYSE g1) w1) as [g3 w3].
    simpl in Hlink.
    destruct (includeStatements_off fuel (loaded_entryModules loaded) g3 w3)
      as [Hsame Hfuel]; [by rewrite Hlink|].
    rewrite Hsame in *.
    unfold mbind, Outcome_bind.
    destruct (includeStatements _ _ _ _ _ _ O _ g3 w3) as [[g4 w4]| |]; [|done|done].
    by destruct (generateChunks _ _ _ _ _ _ _ _ _ _ _ _).
  - exfalso. revert Hparse. unfold parseModules, mbind, Outcome_bind, liftResult.
    destruct (ModuleLoader_addEntryModules _ _ _ _) as [e|[loaded0 [byId w1]]]; [done|].
    destruct manualChunks as [|o|f]; try (by case_bool_decide).
    destruct (ModuleLoader_assignManualChunks f (byId, w1)) as [e|[byId2 w2]]; [done|].
    by case_bool_decide.
Qed.

End GraphTheory.

(** * The model of the module subsystem *)

(** ** Seeding from the entry modules *)











(** Against C2 as claimed: in [reexportProgram] the entry [a.js] does not
    preserve its signature and exports [x], which the signature-preserving
    entry [b.js] exports too; after the seeding [x] is included, although
    nothing was included before. *)
Lemma seeding_includes_export_of_none_entry :
  let entryModules := ["a.js"; "b.js"] in
  let w' := (seedEntryModules (model_moduleAt reexportProgram)
               (model_includeAllExports reexportProgram)
               (model_markModuleAndImpureDependenciesAsExecuted reexportProgram)
               entryModules emptyWorld false).1 in
  "a.js" ∈ entryModules
  ∧ Module_preserveSignature (model_moduleAt reexportProgram emptyWorld "a.js")
    = PreserveFalse
  ∧ "x" ∈ src_exports (sourceOf reexportProgram "a.js")
  ∧ world_included emptyWorld = ∅
  ∧ "x" ∈ world_included w'.
Proof.
  cbv zeta. split_and!.
  - by_evaluation.
  - reflexivity.
  - by_evaluation.
  - reflexivity.
  - by_evaluation.
Qed.

(** ** Inclusion in the model *)

Lemma grows_twice (X Y Z : gset string) :
  X ⊆ Y → Y ⊆ Z → (Z ≠ X ↔ Y ≠ X ∨ Z ≠ Y).
Proof.
  intros HXY HYZ. split.
  - intros Hne. destruct (decide (Y = X)) as [->|]; [by right | by left].
  - intros [Hne|Hne] Heq; apply Hne; apply set_eq; intros x; subst; split; auto.
Qed.

Lemma includesWithin_refl D acc : includesWithin D acc acc.
Proof.
  split_and!; [done | set_solver |]. split; [by left | intros [?|?]; done].
Qed.

Lemma includesWithin_trans D1 D2 acc1 acc2 acc3 :
  includesWithin D1 acc1 acc2 → includesWithin D2 acc2 acc3 →
  includesWithin (D1 ∪ D2) acc1 acc3.
Proof.
  intros (H1 & H1' & Hf1) (H2 & H2' & Hf2). split_and!; [set_solver | set_solver |].
  rewrite Hf2, Hf1, (grows_twice acc1.1 acc2.1 acc3.1) by done. tauto.
Qed.

Lemma includesWithin_mono D D' acc acc' :
  D ⊆ D' → includesWithin D acc acc' → includesWithin D' acc acc'.
Proof. intros HD (H1 & H2 & H3). split_and!; [done | set_solver | done]. Qed.

Lemma requestItem_within acc x : includesWithin {[x]} acc (requestItem acc x).
Proof.
  unfold requestItem. destruct (decide (x ∈ acc.1)) as [Hin|Hnotin].
  - apply includesWithin_refl.
  - split_and!; simpl; [set_solver | set_solver |]. split; [|done].
    intros _. right. intros Heq. apply Hnotin. rewrite <- Heq. set_solver.
Qed.

Lemma requestItems_within (l : list string) acc :
  includesWithin (list_to_set l) acc (foldl requestItem acc l).
Proof.
  revert acc. induction l as [|x l IH]; intros acc; simpl.
  - apply includesWithin_refl.
  - eapply includesWithin_trans; [apply requestItem_within | apply IH].
Qed.

Lemma includeStatement_within acc s :
  includesWithin (statementItems s) acc (includeStatement acc s).
Proof.
  unfold includeStatement, statementItems.
  destruct (stmt_hasEffects s || bool_decide (stmt_label s ∈ acc.1)).
  - apply (requestItems_within (stmt_label s :: stmt_reads s)).
  - apply includesWithin_refl.
Qed.

Lemma includeStatements_within (l : list Statement) acc :
  includesWithin (⋃ (statementItems <$> l)) acc (foldl includeStatement acc l).
Proof.
  revert acc. induction l as [|s l IH]; intros acc; simpl.
  - apply includesWithin_refl.
  - eapply includesWithin_trans; [apply includeStatement_within | apply IH].
Qed.

Lemma statements_in_programItems prog m :
  ⋃ (statementItems <$> src_statements (sourceOf prog m)) ⊆ programItems prog.
Proof.
  unfold sourceOf, programItems.
  destruct (prog !! m) as [src|] eqn:Hm; simpl; [|set_solver].
  intros x Hx. apply elem_of_union_list.
  exists (⋃ (statementItems <$> src_statements src)). split; [|done].
  apply list_elem_of_fmap. exists (m, src). split; [done|].
  by apply elem_of_map_to_list.
Qed.

Lemma model_include_within prog m w :
  includesWithin (programItems prog) (world_included w, false)
    (world_included (model_include prog m w).1, (model_include prog m w).2).
Proof.
  unfold model_include.
  pose proof (includeStatements_within (src_statements (sourceOf prog m))
                (world_included w, false)) as Hfold.
  destruct (foldl includeStatement (world_included w, false)
              (src_statements (sourceOf prog m))) as [included requested].
  simpl. eapply includesWithin_mono; [apply statements_in_programItems | exact Hfold].
Qed.

Lemma model_include_grows prog m w :
  world_included w ⊆ world_included (model_include prog m w).1.
Proof. by destruct (model_include_within prog m w) as (? & _ & _). Qed.

Lemma model_include_requests_pass prog m w :
  (model_include prog m w).2 = true
  ↔ world_included (model_include prog m w).1 ≠ world_included w.
Proof.
  destruct (model_include_within prog m w) as (_ & _ & Hf). simpl in Hf.
  rewrite Hf. split; [intros [?|?]; done | by right].
Qed.

Lemma model_include_in_domain prog m w :
  world_included w ⊆ programItems prog →
  world_included (model_include prog m w).1 ⊆ programItems prog.
Proof.
  destruct (model_include_within prog m w) as (_ & Hd & _). simpl in Hd. set_solver.
Qed.

(** ** [getModuleInfo] on a module that is still loading *)

(** C8. [getModuleInfo(id)] throws for an [id] that is a key of
    [moduleById]: while the modules load, [main.js] is in the map, parsed,
    with its source [lib.js] not yet in [resolvedIds], and line 257 reads
    [.id] of the missing entry, a type error and not the
    [Unable to find module] error of an unknown id.  No projection is
    returned for this known id. *)
Theorem getModuleInfo_throws_for_known_id :
  "main.js" ∈ (moduleById exampleLoadingGraph).*1
  ∧ mapGet "main.js" (moduleById exampleLoadingGraph) = Some (IsModule "main.js")
  ∧ Module_sources (model_loadingModuleAt exampleProgram exampleWorld "main.js")
    = ["lib.js"]
  ∧ Module_resolvedIds (model_loadingModuleAt exampleProgram exampleWorld "main.js")
      !! "lib.js" = None
  ∧ getModuleInfo (model_loadingModuleAt exampleProgram) model_externalAt
      "main.js" exampleLoadingGraph exampleWorld
    = Threw (PlainError "Cannot read property 'id' of undefined")
  ∧ getModuleInfo (model_loadingModuleAt exampleProgram) model_externalAt
      "missing.js" exampleLoadingGraph exampleWorld
    = Threw (PlainError "Unable to find module missing.js").
Proof.
  split_and!.
  - by_evaluation.
  - reflexivity.
  - vm_compute. reflexivity.
  - reflexivity.
  - vm_compute. reflexivity.
  - vm_compute. reflexivity.
Qed.

(** ** A counter that is not incremented *)

(** Against C6 as claimed: a supplied entry whose counter is [2^53] has
    the counter [2^53] after the construction, not [2^53 + 1]. *)
Lemma counter_at_two_to_53_stays :
  ∃ g pc,
    opt_cache saturatedOptions
    = CacheObject None (Some {[ "plugin" := {[ "old" := (2 ^ 53, "a") ]} ]})
    ∧ cacheEntry (suppliedPlugins (opt_cache saturatedOptions)) "plugin" "old"
      = Some (2 ^ 53, "a")
    ∧ model_newGraph saturatedOptions None = Returned g
    ∧ pluginCache g = Some pc
    ∧ cacheEntry pc "plugin" "old" = Some (2 ^ 53, "a")
    ∧ cacheEntry pc "plugin" "old" ≠ Some (2 ^ 53 + 1, "a").
Proof.
  eexists _, _. split_and!.
  - reflexivity.
  - vm_compute. reflexivity.
  - vm_compute. reflexivity.
  - vm_compute. reflexivity.
  - vm_compute. reflexivity.
  - vm_compute. discriminate.
Qed.

(** * Instances on the example program *)

Lemma treeshaking_reaches_fixed_point_witness :
  world_included exampleWorld ⊆ programItems exampleProgram
  ∧ (∃ n, (1 ≤ n ≤ S (size (programItems exampleProgram ∖ world_included exampleWorld)))%nat
      ∧ (∀ fuel, (n ≤ fuel)%nat →
           treeshakingLoop (model_moduleAt exampleProgram) (model_include exampleProgram)
             fuel exampleGraph exampleWorld
           = Returned (afterPasses (model_moduleAt exampleProgram)
                         (model_include exampleProgram) n exampleGraph exampleWorld, n))
      ∧ needsTreeshakingPass
          (afterPasses (model_moduleAt exampleProgram) (model_include exampleProgram)
             n exampleGraph exampleWorld).1 = false)
  ∧ ∃ n g' w',
      includeStatements (model_moduleAt exampleProgram) (model_include exampleProgram)
        (model_includeAllExports exampleProgram)
        (model_includeAllInBundle exampleProgram)
        (model_markModuleAndImpureDependenciesAsExecuted exampleProgram)
        model_noWarnings n ["main.js"] exampleGraph exampleWorld
      = Returned (g', w').
Proof.
  assert (world_included exampleWorld ⊆ programItems exampleProgram) as Hdom.
  { by_evaluation. }
  split; [exact Hdom|].
  destruct (treeshaking_reaches_fixed_point (CacheValue := string) (ModuleJSON := string)
              (model_moduleAt exampleProgram) (model_include exampleProgram)
              (model_includeAllExports exampleProgram)
              (model_includeAllInBundle exampleProgram)
              (model_markModuleAndImpureDependenciesAsExecuted exampleProgram)
              model_noWarnings
              world_included (programItems exampleProgram)
              (model_include_grows exampleProgram)
              (model_include_requests_pass exampleProgram)
              (model_include_in_domain exampleProgram))
    as (_ & _ & _ & Hloop & Hstatements).
  split.
  - destruct (Hloop exampleGraph exampleWorld Hdom) as (n & Hn & Hret & _ & _ & Hlast & _).
    exists n. split_and!; [apply Hn | apply Hn | exact Hret | exact Hlast].
  - destruct (Hstatements ["main.js"] exampleGraph exampleWorld)
      as (n & _ & Hret & _).
    + vm_compute. eauto.
    + by_evaluation.
    + eexists n, _, _. rewrite (Hret n (le_n n)). apply f_equal, surjective_pairing.
Defined.


Lemma inline_dynamic_imports_single_chunk_witness :
  preserveModules exampleBundleGraph = false
  ∧ ∃ chunk,
      (generateChunks (model_moduleAt exampleProgram) (model_isIncluded exampleProgram)
         (model_initialEntryModules exampleProgram) model_link model_generateFacades
         model_getChunkAssignments model_execIndex
         ["main.js"] [("vendor", ["lib.js"])] true exampleBundleGraph exampleWorld).1
      = [chunk]
      ∧ Chunk_orderedModules chunk ≡ₚ ["main.js"; "lib.js"].
Proof.
  split; [reflexivity|].
  pose proof (inline_dynamic_imports_single_chunk
                (model_moduleAt exampleProgram) (model_isIncluded exampleProgram)
                (model_initialEntryModules exampleProgram) model_link model_generateFacades
                model_getChunkAssignments model_execIndex
                ["main.js"] [("vendor", ["lib.js"])] exampleBundleGraph exampleWorld
                eq_refl) as Hone.
  destruct (generateChunkLists _ _ _ _ _ _ _ _ _ _ _ _) as [[chunks facades] g'].
  destruct Hone as (chunk & _ & Hperm & _ & _ & Hfacades & Hresult & _).
  exists chunk. split; [|exact Hperm].
  rewrite Hresult, Hfacades. reflexivity.
Defined.

Lemma preserve_modules_one_chunk_per_module_witness :
  preserveModules exampleGraph = true
  ∧ NoDup (modules exampleGraph)
  ∧ map Chunk_orderedModules
      (generateChunks (model_moduleAt exampleProgram) (model_isIncluded exampleProgram)
         (model_initialEntryModules exampleProgram) model_link model_generateFacades
         model_getChunkAssignments model_execIndex
         ["main.js"] [] false exampleGraph exampleWorld).1
    = [["main.js"]].
Proof.
  assert (NoDup (modules exampleGraph)) as Hnodup by by_evaluation.
  split; [reflexivity|]. split; [exact Hnodup|].
  pose proof (preserve_modules_one_chunk_per_module
                (model_moduleAt exampleProgram) (model_isIncluded exampleProgram)
                (model_initialEntryModules exampleProgram) model_link model_generateFacades
                model_getChunkAssignments model_execIndex
                ["main.js"] [] false exampleGraph exampleWorld eq_refl Hnodup) as Hper.
  destruct (generateChunkLists _ _ _ _ _ _ _ _ _ _ _ _) as [[chunks facades] g'] eqn:Hlists.
  destruct Hper as (_ & _ & Hchunks & Hresult).
  rewrite Hresult.
  assert (facades = []) as -> by (vm_compute in Hlists; congruence).
  rewrite app_nil_r, Hchunks. vm_compute. reflexivity.
Defined.


Lemma treeshake_option_normalisation_witness :
  ∃ g t ws,
    model_newGraph exampleOptions None = Returned g
    ∧ treeshakingOptions g = Some t
    ∧ annotations t = false
    ∧ tryCatchDeoptimization t = true
    ∧ pureExternalModules t = Some (PureBool true)
    ∧ onwarn g = errDeprecation pureExternalModulesDeprecation :: ws.
Proof.
  destruct (treeshake_option_normalisation (ModuleRef := string) (ExternalRef := string)
              (fun j : string => j) model_PluginDriver_new model_RollupWatcher_listen
              model_String_of model_Parser_extend model_ModuleLoader_new
              exampleOptions None) as (_ & Hreturned & _).
  assert (∃ g, model_newGraph exampleOptions None = Returned g) as [g Hg]
    by (eexists; vm_compute; reflexivity).
  destruct (Hreturned g Hg) as (_ & _ & _ & Hobject).
  destruct (Hobject _ eq_refl) as (t & Ht & Hann & _ & Htry & _ & _ & Hpure & Hwarn).
  destruct Hwarn as (_ & ws & Hws); [by eexists|].
  exists g, t, ws. split_and!; [exact Hg | exact Ht | | | exact Hpure | exact Hws].
  - apply Hann. reflexivity.
  - destruct (tryCatchDeoptimization t) eqn:Htc; [done|].
    destruct Htry as [Htry _]. specialize (Htry eq_refl). discriminate.
Defined.


Lemma warnForMissingExports_reports_witness :
  map name
    (onwarn (warnForMissingExports (model_moduleAt exampleProgram) model_externalAt
               (fun x => x) (model_exportedVariable exampleProgram)
               model_exportShimVariable model_externalVariable
               exampleGraph exampleWorld))
  = [Some "z"]
  ∧ onwarn (warnForMissingExports (model_moduleAt exampleProgram) model_externalAt
              (fun x => x) (model_exportedVariable exampleProgram)
              model_exportShimVariable model_externalVariable
              (set_shimMissingExports true exampleGraph) exampleWorld)
    = [].
Proof.
  split.
  - destruct (warnForMissingExports_reports (model_moduleAt exampleProgram)
                model_externalAt (fun x => x) (model_exportedVariable exampleProgram)
                model_exportShimVariable model_externalVariable
                exampleGraph exampleWorld) as (_ & Hwarned & _).
    rewrite Hwarned. vm_compute. reflexivity.
  - destruct (warnForMissingExports_reports (model_moduleAt exampleProgram)
                model_externalAt (fun x => x) (model_exportedVariable exampleProgram)
                model_exportShimVariable model_externalVariable
                (set_shimMissingExports true exampleGraph) exampleWorld)
      as (_ & _ & _ & Hshim & _).
    apply Hshim. reflexivity.
Defined.

Lemma build_fails_without_entry_modules_witness :
  build (model_moduleAt exampleProgram) model_externalAt
    (model_isIncluded exampleProgram) model_noWarnings model_noWarnings
    (model_include exampleProgram) (model_includeAllExports exampleProgram)
    (model_includeAllInBundle exampleProgram)
    (model_markModuleAndImpureDependenciesAsExecuted exampleProgram)
    model_noWarnings model_analyseModuleExecution (fun x => x)
    (model_exportedVariable exampleProgram) model_exportShimVariable
    model_externalVariable (model_initialEntryModules exampleProgram) model_link
    model_generateFacades model_getChunkAssignments model_execIndex
    (model_addEntryModules exampleProgram) model_assignManualChunks
    3 (InputArray []) ManualChunksVoid false exampleBundleGraph exampleWorld
  = Threw (PlainError "You must supply options.input to rollup").
Proof.
  apply (build_fails_without_entry_modules
           (model_moduleAt exampleProgram) model_externalAt
           model_noWarnings model_noWarnings model_analyseModuleExecution (fun x => x)
           (model_exportedVariable exampleProgram) model_exportShimVariable
           model_externalVariable (model_include exampleProgram)
           (model_isIncluded exampleProgram)
           (model_initialEntryModules exampleProgram) model_link
           model_generateFacades model_getChunkAssignments model_execIndex
           (model_includeAllExports exampleProgram)
           (model_includeAllInBundle exampleProgram)
           (model_markModuleAndImpureDependenciesAsExecuted exampleProgram)
           model_noWarnings
           (model_addEntryModules exampleProgram) model_assignManualChunks
           3 (InputArray []) ManualChunksVoid false exampleBundleGraph exampleWorld
           _ _ _ eq_refl eq_refl).
Defined.


Lemma getModuleInfo_unresolved_source_witness :
  getModuleInfo (model_loadingModuleAt exampleProgram) model_externalAt
    "main.js" exampleGraph exampleWorld
  = Threw (PlainError "Cannot read property 'id' of undefined").
Proof.
  apply (getModuleInfo_unresolved_source (model_loadingModuleAt exampleProgram)
           model_externalAt exampleGraph exampleWorld "main.js" "main.js" "lib.js").
  - reflexivity.
  - by_evaluation.
  - reflexivity.
Defined.


Lemma includeStatements_with_treeshaking_returns_witness :
  ∃ n g' w',
    includeStatements (model_moduleAt exampleProgram) (model_include exampleProgram)
      (model_includeAllExports exampleProgram)
      (model_includeAllInBundle exampleProgram)
      (model_markModuleAndImpureDependenciesAsExecuted exampleProgram)
      model_noWarnings n ["main.js"] exampleGraph exampleWorld
    = Returned (g', w')
    ∧ needsTreeshakingPass g' = false.
Proof.
  destruct (includeStatements_with_treeshaking_returns
              (model_moduleAt exampleProgram) (model_include exampleProgram)
              (model_includeAllExports exampleProgram)
              (model_includeAllInBundle exampleProgram)
              (model_markModuleAndImpureDependenciesAsExecuted exampleProgram)
              model_noWarnings world_included (programItems exampleProgram)
              (model_include_grows exampleProgram)
              (model_include_requests_pass exampleProgram)
              (model_include_in_domain exampleProgram)
              ["main.js"] exampleGraph exampleWorld)
    as (n & _ & Hret & _).
  - vm_compute. eauto.
  - by_evaluation.
  - destruct (Hret n (le_n n)) as (g' & w' & Hrun & Hflag). eauto.
Defined.

Lemma preserve_modules_keeps_entry_points_witness :
  ∃ chunk,
    chunk ∈ (generateChunkLists (model_moduleAt exampleProgram)
               (model_isIncluded exampleProgram)
               (model_initialEntryModules exampleProgram) model_link
               model_generateFacades model_getChunkAssignments model_execIndex
               ["main.js"] [] false exampleGraph
               {| world_executed := ∅; world_included := ∅ |}).1.1
    ∧ "main.js" ∈ Chunk_orderedModules chunk.
Proof.
  apply (preserve_modules_keeps_entry_points (model_moduleAt exampleProgram)
           (model_isIncluded exampleProgram)
           (model_initialEntryModules exampleProgram) model_link
           model_generateFacades model_getChunkAssignments model_execIndex
           ["main.js"] [] false exampleGraph
           {| world_executed := ∅; world_included := ∅ |} "main.js").
  - reflexivity.
  - by_evaluation.
  - right. left. reflexivity.
Defined.

Lemma parseModules_classifies_witness :
  ∃ loaded g' w',
    parseModules (model_addEntryModules exampleProgram) model_assignManualChunks
      (InputRecord [("main", "main.js")]) ManualChunksVoid exampleFreshGraph exampleWorld
    = Returned (loaded, (g', w'))
    ∧ modules g' = modulesOf (moduleById g')
    ∧ modules g' = ["main.js"].
Proof.
  assert (∃ loaded g' w',
            parseModules (model_addEntryModules exampleProgram) model_assignManualChunks
              (InputRecord [("main", "main.js")]) ManualChunksVoid exampleFreshGraph
              exampleWorld
            = Returned (loaded, (g', w')) ∧ modules g' = ["main.js"])
    as (loaded & g' & w' & Hparse & Hmodules)
    by (eexists _, _, _; split; vm_compute; reflexivity).
  exists loaded, g', w'. split; [exact Hparse|]. split; [|exact Hmodules].
  destruct (parseModules_classifies (model_addEntryModules exampleProgram)
              model_assignManualChunks _ _ _ _ _ _ _ Hparse) as (_ & _ & Hm & _).
  exact Hm.
Defined.

Lemma build_returns_with_entry_modules_witness :
  ∃ chunks g' w',
    build (model_moduleAt exampleProgram) model_externalAt
      (model_isIncluded exampleProgram) model_noWarnings model_noWarnings
      (model_include exampleProgram) (model_includeAllExports exampleProgram)
      (model_includeAllInBundle exampleProgram)
      (model_markModuleAndImpureDependenciesAsExecuted exampleProgram)
      model_noWarnings model_analyseModuleExecution (fun x => x)
      (model_exportedVariable exampleProgram) model_exportShimVariable
      model_externalVariable (model_initialEntryModules exampleProgram) model_link
      model_generateFacades model_getChunkAssignments model_execIndex
      (model_addEntryModules exampleProgram) model_assignManualChunks
      3 (InputString "main.js") ManualChunksVoid false exampleFreshGraph exampleWorld
    = Returned (chunks, (g', w'))
    ∧ phase g' = GENERATE.
Proof.
  assert (∃ chunks g' w',
    build (model_moduleAt exampleProgram) model_externalAt
      (model_isIncluded exampleProgram) model_noWarnings model_noWarnings
      (model_include exampleProgram) (model_includeAllExports exampleProgram)
      (model_includeAllInBundle exampleProgram)
      (model_markModuleAndImpureDependenciesAsExecuted exampleProgram)
      model_noWarnings model_analyseModuleExecution (fun x => x)
      (model_exportedVariable exampleProgram) model_exportShimVariable
      model_externalVariable (model_initialEntryModules exampleProgram) model_link
      model_generateFacades model_getChunkAssignments model_execIndex
      (model_addEntryModules exampleProgram) model_assignManualChunks
      3 (InputString "main.js") ManualChunksVoid false exampleFreshGraph exampleWorld
    = Returned (chunks, (g', w'))) as (chunks & g' & w' & Hbuild)
    by (eexists _, _, _; vm_compute; reflexivity).
  exists chunks, g', w'. split; [exact Hbuild|].
  apply (build_returns_with_entry_modules _ _ _ _ _ _ _ _ _ _ _ _ _ _ _ _ _ _ _ _ _ _
           _ _ _ _ _ _ _ _ _ Hbuild).
Defined.

Lemma build_without_treeshaking_witness :
  build (model_moduleAt exampleProgram) model_externalAt
    (model_isIncluded exampleProgram) model_noWarnings model_noWarnings
    (model_include exampleProgram) (model_includeAllExports exampleProgram)
    (model_includeAllInBundle exampleProgram)
    (model_markModuleAndImpureDependenciesAsExecuted exampleProgram)
    model_noWarnings model_analyseModuleExecution (fun x => x)
    (model_exportedVariable exampleProgram) model_exportShimVariable
    model_externalVariable (model_initialEntryModules exampleProgram) model_link
    model_generateFacades model_getChunkAssignments model_execIndex
    (model_addEntryModules exampleProgram) model_assignManualChunks
    O (InputString "main.js") ManualChunksVoid false exampleNoTreeshakeGraph exampleWorld
  ≠ OutOfFuel.
Proof.
  apply (build_without_treeshaking (model_moduleAt exampleProgram) model_externalAt
           model_noWarnings model_noWarnings model_analyseModuleExecution (fun x => x)
           (model_exportedVariable exampleProgram) model_exportShimVariable
           model_externalVariable (model_include exampleProgram)
           (model_isIncluded exampleProgram)
           (model_initialEntryModules exampleProgram) model_link
           model_generateFacades model_getChunkAssignments model_execIndex
           (model_includeAllExports exampleProgram)
           (model_includeAllInBundle exampleProgram)
           (model_markModuleAndImpureDependenciesAsExecuted exampleProgram)
           model_noWarnings
           (model_addEntryModules exampleProgram) model_assignManualChunks
           O (InputString "main.js") ManualChunksVoid false
           exampleNoTreeshakeGraph exampleWorld eq_refl).
Defined.
